(** * python-state-machine: the execution engine, embedded and verified

    Shallow embedding of [statemachine/types.py] and
    [statemachine/machine.py].

    Modelling conventions
    - Python [float] seconds are integer clock ticks ([Time := Z], one tick
      is a millisecond, so [time.sleep(0.1)] is 100 ticks).  The clock only
      advances while a handler runs or while the engine sleeps.
    - A handler is an opaque callable: given its context and the clock it
      either returns a [StateResult] or raises, and it takes some time.
      Every invocation is appended to the world's [invocations] log.
    - Exceptions keep the engine state they were raised in, as in Python:
      an outcome is [Ok], [Exn] (both with the machine and the world) or
      [OutOfFuel] for a loop that was cut off by the model's fuel.
    - Only [Exception] subclasses are modelled, not [BaseException], and
      the interpreter's recursion limit is not modelled. *)

From Stdlib Require Import ZArith Lia.
From stdpp Require Import base option list strings gmap pretty.

Local Open Scope Z_scope.

(** ** [types.py] *)

Inductive StateResult : Set := SUCCESS | FAILURE | RETRY | SKIP | TIMEOUT.

#[global] Instance StateResult_eq_dec : EqDecision StateResult.
Proof. solve_decision. Defined.

(** A member of an [Enum] class: the class, the member name and its value. *)
Record State : Set := mkState {
  st_cls : string;
  st_name : string;
  st_value : string
}.

#[global] Instance State_eq_dec : EqDecision State.
Proof. solve_decision. Defined.

#[global] Instance State_countable : Countable State.
Proof.
  refine (inj_countable' (fun s => (st_cls s, st_name s, st_value s))
                         (fun '(c, n, v) => mkState c n v) _).
  by intros [].
Defined.

(** [str(state)], as the f-strings of the engine print it. *)
Definition str_state (s : State) : string :=
  st_cls s +:+ "." +:+ st_name s.

Definition Time := Z.

Inductive Exception : Set :=
| ValueError (msg : string)
| AttributeError (msg : string)
| RuntimeError (msg : string)
| TypeError (msg : string)
| KeyError (key : option State).

Record StateMetadata : Set := mkStateMetadata {
  name : string;
  description : string;
  max_retries : Z;
  timeout : option Time;
  failover_state : option State
}.

(** [StateMetadata.__post_init__]: the dataclass constructor. *)
Definition new_StateMetadata (name description : string) (max_retries : Z)
    (timeout : option Time) (failover_state : option State)
  : Exception + StateMetadata :=
  if bool_decide (max_retries < 0) then
    inl (ValueError ("max_retries must be >= 0, got " +:+ pretty max_retries))
  else
    match timeout with
    | Some t =>
        if bool_decide (t <= 0) then
          inl (ValueError ("timeout must be > 0 or None, got " +:+ pretty t))
        else inr (mkStateMetadata name description max_retries timeout failover_state)
    | None => inr (mkStateMetadata name description max_retries timeout failover_state)
    end.

(** What a guard (a zero-argument callable) does when it is called. *)
Inductive GuardOutcome : Set :=
| GReturns (b : bool)
| GRaises (msg : string).

Record StateTransition : Type := mkStateTransition {
  from_state : State;
  to_state : State;
  condition : option (Time -> GuardOutcome)
}.

(** [StateTransition.can_transition] *)
Definition can_transition (t : StateTransition) (now : Time) : bool :=
  match condition t with
  | None => true
  | Some c =>
      match c now with
      | GReturns b => b
      | GRaises _ => false
      end
  end.

Record StateHistoryEntry : Set := mkStateHistoryEntry {
  h_state : State;
  h_result : StateResult;
  h_duration : Time;
  h_timestamp : Time;
  h_retry_count : Z;
  h_error_message : option string
}.

Definition succeeded (e : StateHistoryEntry) : bool :=
  bool_decide (h_result e = SUCCESS).

Definition failed (e : StateHistoryEntry) : bool :=
  bool_decide (h_result e = FAILURE) || bool_decide (h_result e = TIMEOUT).

Record StateExecutionContext : Set := mkStateExecutionContext {
  current_state : State;
  retry_count : Z;
  start_time : Time
}.

(** [StateExecutionContext.elapsed_time], with the clock passed in. *)
Definition elapsed_time (ctx : StateExecutionContext) (now : Time) : Time :=
  now - start_time ctx.

(** [StateExecutionContext.has_timed_out] *)
Definition has_timed_out (ctx : StateExecutionContext) (now : Time)
    (timeout : option Time) : bool :=
  match timeout with
  | None => false
  | Some t => bool_decide (t <= elapsed_time ctx now)
  end.

(** ** The world outside the engine *)

(** What one handler invocation does. *)
Inductive HandlerOutcome : Set :=
| Returns (r : StateResult)
| Raises (msg : string).

(** A handler gets its context and the clock, and answers with what it did
    and how many ticks it took. *)
Definition Handler : Type :=
  StateExecutionContext -> Time -> HandlerOutcome * Time.

Record World : Set := mkWorld {
  clock : Time;
  invocations : list (State * Z)
}.

(** [time.sleep] *)
Definition sleep (d : Time) (w : World) : World :=
  mkWorld (clock w + d) (invocations w).

(** The pause of the inner loop, [time.sleep(0.1)]. *)
Definition RETRY_PAUSE : Time := 100.

(** One call [handler(context)]: logged, and the clock moves on. *)
Definition invoke (handler : Handler) (ctx : StateExecutionContext) (w : World)
  : HandlerOutcome * World :=
  let '(o, d) := handler ctx (clock w) in
  (o, mkWorld (clock w + d)
              (invocations w ++ [(current_state ctx, retry_count ctx)])).

(** The subclass of [StateMachine] that the application writes: the four
    abstract methods and the methods found by [getattr]. *)
Record MachineClass : Type := mkMachineClass {
  define_states : list State;
  define_state_metadata : gmap State StateMetadata;
  define_transitions : list StateTransition;
  get_initial_state : State;
  methods : gmap string Handler
}.

(** ** [machine.py]: the engine state *)

Record StateMachine : Type := mkStateMachine {
  _states : option (list State);
  _state_metadata : gmap State StateMetadata;
  _transitions : list StateTransition;
  _current_state : option State;
  _transition_map : gmap State (list StateTransition);
  _state_history : list StateHistoryEntry;
  _retry_counts : gmap State Z;
  _initialized : bool;
  _watchdog_timeout : option Time;
  _watchdog_last_activity : Time;
  _watchdog_warned : bool
}.

Definition MAX_STATES_PER_RUN : nat := 100%nat.

(** [deque(maxlen=100)] *)
Definition HISTORY_MAXLEN : nat := 100%nat.

(** [StateMachine.__init__] *)
Definition new_StateMachine (w : World) : StateMachine :=
  {| _states := None;
     _state_metadata := ∅;
     _transitions := [];
     _current_state := None;
     _transition_map := ∅;
     _state_history := [];
     _retry_counts := ∅;
     _initialized := false;
     _watchdog_timeout := None;
     _watchdog_last_activity := clock w;
     _watchdog_warned := false |}.

Definition set_current_state (s : option State) (m : StateMachine) : StateMachine :=
  mkStateMachine (_states m) (_state_metadata m) (_transitions m) s
    (_transition_map m) (_state_history m) (_retry_counts m) (_initialized m)
    (_watchdog_timeout m) (_watchdog_last_activity m) (_watchdog_warned m).

Definition set_state_history (h : list StateHistoryEntry) (m : StateMachine)
  : StateMachine :=
  mkStateMachine (_states m) (_state_metadata m) (_transitions m)
    (_current_state m) (_transition_map m) h (_retry_counts m) (_initialized m)
    (_watchdog_timeout m) (_watchdog_last_activity m) (_watchdog_warned m).

Definition set_retry_counts (r : gmap State Z) (m : StateMachine) : StateMachine :=
  mkStateMachine (_states m) (_state_metadata m) (_transitions m)
    (_current_state m) (_transition_map m) (_state_history m) r (_initialized m)
    (_watchdog_timeout m) (_watchdog_last_activity m) (_watchdog_warned m).

Definition set_initialized (b : bool) (m : StateMachine) : StateMachine :=
  mkStateMachine (_states m) (_state_metadata m) (_transitions m)
    (_current_state m) (_transition_map m) (_state_history m) (_retry_counts m) b
    (_watchdog_timeout m) (_watchdog_last_activity m) (_watchdog_warned m).

Definition set_watchdog (t : option Time) (last : Time) (warned : bool)
    (m : StateMachine) : StateMachine :=
  mkStateMachine (_states m) (_state_metadata m) (_transitions m)
    (_current_state m) (_transition_map m) (_state_history m) (_retry_counts m)
    (_initialized m) t last warned.

(** The assignments of [initialize] before validation. *)
Definition set_configuration (states : list State)
    (metadata : gmap State StateMetadata) (transitions : list StateTransition)
    (initial : State) (tmap : gmap State (list StateTransition))
    (m : StateMachine) : StateMachine :=
  mkStateMachine (Some states) metadata transitions (Some initial) tmap
    (_state_history m) (_retry_counts m) (_initialized m)
    (_watchdog_timeout m) (_watchdog_last_activity m) (_watchdog_warned m).

(** [deque.append] on a deque with a [maxlen]: the oldest entries fall out. *)
Definition deque_append {A} (maxlen : nat) (d : list A) (x : A) : list A :=
  drop (length (d ++ [x]) - maxlen)%nat (d ++ [x]).

(** ** Outcomes and the engine monad *)

Inductive Outcome (A : Type) : Type :=
| Ok (a : A) (m : StateMachine) (w : World)
| Exn (e : Exception) (m : StateMachine) (w : World)
| OutOfFuel.
Arguments Ok {A} a m w.
Arguments Exn {A} e m w.
Arguments OutOfFuel {A}.

Definition Eng (A : Type) : Type := StateMachine -> World -> Outcome A.

Definition ret {A} (a : A) : Eng A := fun m w => Ok a m w.

Definition bind {A B} (c : Eng A) (k : A -> Eng B) : Eng B :=
  fun m w =>
    match c m w with
    | Ok a m' w' => k a m' w'
    | Exn e m' w' => Exn e m' w'
    | OutOfFuel => OutOfFuel
    end.

Definition raise {A} (e : Exception) : Eng A := fun m w => Exn e m w.
Definition get_self : Eng StateMachine := fun m w => Ok m m w.
Definition update_self (f : StateMachine -> StateMachine) : Eng unit :=
  fun m w => Ok tt (f m) w.
Definition time_time : Eng Time := fun m w => Ok (clock w) m w.

Notation "'let*' x ':=' c 'in' k" := (bind c (fun x => k))
  (at level 10, x name, c at level 100, k at level 200).
Notation "'do' c 'then' k" := (bind c (fun _ => k))
  (at level 10, c at level 100, k at level 200).

(** ** [machine.py]: initialisation *)

(** The loop of [initialize] that builds the lookup map:
    [self._transition_map.setdefault(t.from_state, []).append(t)]. *)
Definition build_transition_map (transitions : list StateTransition)
  : gmap State (list StateTransition) :=
  fold_left
    (fun tm t => <[from_state t := default [] (tm !! from_state t) ++ [t]]> tm)
    transitions ∅.

(** First loop of [_validate]. *)
Fixpoint validate_metadata (states : list State)
    (metadata : gmap State StateMetadata) : option Exception :=
  match states with
  | [] => None
  | state :: rest =>
      match metadata !! state with
      | None =>
          Some (ValueError ("State " +:+ str_state state +:+ " has no metadata defined"))
      | Some _ => validate_metadata rest metadata
      end
  end.

(** Last loop of [_validate]. *)
Fixpoint validate_transitions (states : list State)
    (transitions : list StateTransition) : option Exception :=
  match transitions with
  | [] => None
  | t :: rest =>
      if negb (bool_decide (from_state t ∈ states)) then
        Some (ValueError ("Transition from_state " +:+ str_state (from_state t)
                          +:+ " not in states enum"))
      else if negb (bool_decide (to_state t ∈ states)) then
        Some (ValueError ("Transition to_state " +:+ str_state (to_state t)
                          +:+ " not in states enum"))
      else validate_transitions states rest
  end.

Definition str_opt_state (s : option State) : string :=
  match s with Some s => str_state s | None => "None" end.

(** [StateMachine._validate]: [None] when nothing is raised. *)
Definition _validate (self : StateMachine) : option Exception :=
  match _states self with
  | None => Some (TypeError "'NoneType' object is not iterable")
  | Some states =>
      match validate_metadata states (_state_metadata self) with
      | Some e => Some e
      | None =>
          if negb (match _current_state self with
                   | Some s => bool_decide (s ∈ states)
                   | None => false
                   end)
          then Some (ValueError ("Initial state " +:+ str_opt_state (_current_state self)
                                 +:+ " not found in states enum"))
          else validate_transitions states (_transitions self)
      end
  end.

(** [StateMachine.initialize] *)
Definition initialize (cls : MachineClass) : Eng unit :=
  let* self := get_self in
  if _initialized self then ret tt
  else
    do update_self (set_configuration (define_states cls)
                      (define_state_metadata cls) (define_transitions cls)
                      (get_initial_state cls)
                      (build_transition_map (define_transitions cls))) then
    let* self := get_self in
    match _validate self with
    | Some e => raise e
    | None => update_self (set_initialized true)
    end.

(** ** [machine.py]: executing one state *)

Definition ascii_lower (c : Ascii.ascii) : Ascii.ascii :=
  let n := Ascii.N_of_ascii c in
  if ((65 <=? n) && (n <=? 90))%N then Ascii.ascii_of_N (n + 32) else c.

Fixpoint lower (s : string) : string :=
  match s with
  | String.EmptyString => String.EmptyString
  | String.String c rest => String.String (ascii_lower c) (lower rest)
  end.

Definition handler_name (state : State) : string :=
  "_handle_" +:+ lower (st_value state).

(** [StateMachine._get_state_handler] *)
Definition _get_state_handler (cls : MachineClass) (state : State)
  : Exception + Handler :=
  match methods cls !! handler_name state with
  | None =>
      inl (AttributeError ("No handler '" +:+ handler_name state
                           +:+ "' found. Implement this method to handle the '"
                           +:+ st_name state +:+ "' state."))
  | Some handler => inr handler
  end.

(** The [while] loop of [_execute_state].  [result] is the local variable
    of that name; [None] when the fuel runs out. *)
Fixpoint handler_loop (fuel : nat) (handler : Handler)
    (context : StateExecutionContext) (timeout : option Time)
    (result : StateResult) (w : World) : option (HandlerOutcome * World) :=
  match fuel with
  | O => None
  | S fuel' =>
      if has_timed_out context (clock w) timeout then Some (Returns result, w)
      else
        match invoke handler context w with
        | (Raises msg, w1) => Some (Raises msg, w1)
        | (Returns r, w1) =>
            if negb (bool_decide (r = RETRY)) then Some (Returns r, w1)
            else handler_loop fuel' handler context timeout r (sleep RETRY_PAUSE w1)
        end
  end.

Definition timeout_message (t : option Time) : string :=
  "Timeout after " +:+ match t with Some t => pretty t | None => "None" end +:+ "s".

(** The [try]/[except] block of [_execute_state]: the result and the error
    message of one attempt. *)
Definition attempt (fuel : nat) (handler : Handler)
    (context : StateExecutionContext) (metadata : StateMetadata) (w : World)
  : option (StateResult * option string * World) :=
  match handler_loop fuel handler context (timeout metadata) FAILURE w with
  | None => None
  | Some (Raises msg, w1) => Some (FAILURE, Some msg, w1)
  | Some (Returns result, w1) =>
      if has_timed_out context (clock w1) (timeout metadata) then
        Some (TIMEOUT, Some (timeout_message (timeout metadata)), w1)
      else Some (result, None, w1)
  end.

(** [self._state_history.append(StateHistoryEntry(...))] *)
Definition record_attempt (entry : StateHistoryEntry) (self : StateMachine)
  : StateMachine :=
  set_state_history
    (deque_append HISTORY_MAXLEN (_state_history self) entry) self.

(** [result in (StateResult.FAILURE, StateResult.RETRY, StateResult.TIMEOUT)] *)
Definition is_failure (result : StateResult) : bool :=
  bool_decide (result = FAILURE) || bool_decide (result = RETRY)
  || bool_decide (result = TIMEOUT).

(** [self._retry_counts[state] = retry_count + 1], before the recursive
    call of [_execute_state]. *)
Definition retry_again (state : State) (retry_count : Z) (self : StateMachine)
  : StateMachine :=
  set_retry_counts (<[state := retry_count + 1]> (_retry_counts self)) self.

(** The end of [_execute_state] when it does not recurse: the failover
    jump when retries are exhausted, and the reset on [SUCCESS]. *)
Definition settle (state : State) (metadata : StateMetadata)
    (result : StateResult) (self : StateMachine) : StateMachine :=
  let self2 :=
    if is_failure result then
      match failover_state metadata with
      | Some failover =>
          set_retry_counts (<[state := 0]> (_retry_counts self))
            (set_current_state (Some failover) self)
      | None => self
      end
    else self in
  if bool_decide (result = SUCCESS) then
    set_retry_counts (<[state := 0]> (_retry_counts self2)) self2
  else self2.

(** [StateMachine._execute_state].  The fuel bounds the recursion and each
    run of the inner loop. *)
Fixpoint _execute_state (fuel : nat) (cls : MachineClass) (state : State)
    (self : StateMachine) (w : World) : Outcome StateResult :=
  match fuel with
  | O => OutOfFuel
  | S fuel' =>
      match _state_metadata self !! state with
      | None => Exn (KeyError (Some state)) self w
      | Some metadata =>
          let retry_count := default 0 (_retry_counts self !! state) in
          let context := mkStateExecutionContext state retry_count (clock w) in
          let start := clock w in
          match _get_state_handler cls state with
          | inl e => Exn e self w
          | inr handler =>
              match attempt fuel handler context metadata w with
              | None => OutOfFuel
              | Some (result, error_message, w1) =>
                  let duration := clock w1 - start in
                  let self1 :=
                    record_attempt
                      (mkStateHistoryEntry state result duration (clock w1)
                         retry_count error_message) self in
                  if is_failure result && bool_decide (retry_count < max_retries metadata)
                  then
                    _execute_state fuel' cls state (retry_again state retry_count self1) w1
                  else Ok result (settle state metadata result self1) w1
              end
          end
      end
  end.

(** ** [machine.py]: transitions and the run loop *)

(** The [for] loop of [_get_next_state]. *)
Fixpoint first_passing (candidates : list StateTransition) (now : Time)
  : option State :=
  match candidates with
  | [] => None
  | transition :: rest =>
      if can_transition transition now then Some (to_state transition)
      else first_passing rest now
  end.

(** [StateMachine._get_next_state]; [result] is not used by the source
    either. *)
Definition _get_next_state (self : StateMachine) (current_state : State)
    (result : StateResult) (now : Time) : option State :=
  first_passing (default [] (_transition_map self !! current_state)) now.

Definition watchdog_message (idle threshold : Time) : string :=
  "Watchdog: no activity for " +:+ pretty idle +:+ "s (threshold: "
  +:+ pretty threshold +:+ "s)".

(** [StateMachine.enable_watchdog] *)
Definition enable_watchdog (timeout_seconds : Time) : Eng unit :=
  let* now := time_time in
  update_self (set_watchdog (Some timeout_seconds) now false).

(** [StateMachine.record_activity] *)
Definition record_activity : Eng unit :=
  let* now := time_time in
  let* self := get_self in
  update_self (set_watchdog (_watchdog_timeout self) now false).

(** [StateMachine._check_watchdog].  The warning threshold
    [self._watchdog_timeout * 0.8] is compared without fractions:
    [idle >= 0.8 * T] is [4 * T <= 5 * idle]. *)
Definition _check_watchdog : Eng unit :=
  let* self := get_self in
  match _watchdog_timeout self with
  | None => ret tt
  | Some threshold =>
      let* now := time_time in
      let idle := now - _watchdog_last_activity self in
      if bool_decide (threshold <= idle) then
        raise (RuntimeError (watchdog_message idle threshold))
      else if bool_decide (4 * threshold <= 5 * idle) && negb (_watchdog_warned self)
      then update_self (set_watchdog (_watchdog_timeout self)
                          (_watchdog_last_activity self) true)
      else ret tt
  end.

(** The [while steps < self.MAX_STATES_PER_RUN] loop of [run];
    [remaining] is [MAX_STATES_PER_RUN - steps], and the value returned is
    [steps] when the loop is left. *)
Fixpoint run_loop (fuel : nat) (cls : MachineClass) (remaining steps : nat)
  : Eng nat :=
  match remaining with
  | O => ret steps
  | S remaining' =>
      do _check_watchdog then
      let* self := get_self in
      let prev_state := _current_state self in
      match prev_state with
      | None => raise (KeyError None)
      | Some current =>
          let* result := _execute_state fuel cls current in
          let* self := get_self in
          if negb (bool_decide (_current_state self = prev_state)) then
            run_loop fuel cls remaining' (S steps)
          else
            let* now := time_time in
            match _get_next_state self current result now with
            | None => ret steps
            | Some next_state =>
                do update_self (set_current_state (Some next_state)) then
                run_loop fuel cls remaining' (S steps)
            end
      end
  end.

(** How [run] ended: the two log lines that tell the cases apart. *)
Inductive RunEnd : Set := RunComplete | SafetyLimit.

(** [StateMachine.run]; it returns [None] in Python, the value here is
    what it logged last. *)
Definition run (fuel : nat) (cls : MachineClass) : Eng RunEnd :=
  let* self := get_self in
  do (if negb (_initialized self) then initialize cls else ret tt) then
  do update_self (set_retry_counts ∅) then
  let* steps := run_loop fuel cls MAX_STATES_PER_RUN 0 in
  if bool_decide (MAX_STATES_PER_RUN <= steps)%nat then ret SafetyLimit
  else ret RunComplete.

(** ** [machine.py]: introspection *)

Definition get_current_state (self : StateMachine) : option State :=
  _current_state self.

(** Python's [l[start:]]. *)
Definition slice_from {A} (start : Z) (l : list A) : list A :=
  let len := Z.of_nat (length l) in
  let i := if bool_decide (start < 0) then Z.max (len + start) 0
           else Z.min start len in
  drop (Z.to_nat i) l.

(** [StateMachine.get_history] *)
Definition get_history (self : StateMachine) (last_n : option Z)
  : list StateHistoryEntry :=
  let history := _state_history self in
  match last_n with
  | Some n => slice_from (- n) history
  | None => history
  end.

(** [StateMachine.reset] *)
Definition reset (cls : MachineClass) : Eng unit :=
  do update_self (set_current_state (Some (get_initial_state cls))) then
  update_self (set_retry_counts ∅).

(** ** [helpers.py] *)

(** [create_state_metadata]: the keyword arguments go to the dataclass
    constructor as they are. *)
Definition create_state_metadata (name description : string) (max_retries : Z)
    (timeout : option Time) (failover_state : option State)
  : Exception + StateMetadata :=
  new_StateMetadata name description max_retries timeout failover_state.

(** One compact configuration of [build_metadata_dict]: a [dict] with the
    keys ["name"], ["description"], ["max_retries"], ["timeout"] and
    ["failover"], each of which may be absent. *)
Record MetadataConfig : Set := mkMetadataConfig {
  cfg_name : option string;
  cfg_description : option string;
  cfg_max_retries : option Z;
  cfg_timeout : option Time;
  cfg_failover : option State
}.

(** The loop of [build_metadata_dict] over [configs.items()], in insertion
    order; [result] is the dictionary built so far. *)
Fixpoint build_metadata_loop (configs : list (State * MetadataConfig))
    (result : gmap State StateMetadata) : Exception + gmap State StateMetadata :=
  match configs with
  | [] => inr result
  | (state, config) :: rest =>
      match cfg_name config with
      | None =>
          inl (ValueError ("State " +:+ str_state state
                           +:+ " config missing required 'name' field"))
      | Some name =>
          match create_state_metadata name
                  (default "" (cfg_description config))
                  (default 3 (cfg_max_retries config))
                  (cfg_timeout config) (cfg_failover config) with
          | inl e => inl e
          | inr metadata => build_metadata_loop rest (<[state := metadata]> result)
          end
      end
  end.

(** [build_metadata_dict]; the enumeration argument is not used by the
    source either. *)
Definition build_metadata_dict (states_enum : list State)
    (configs : list (State * MetadataConfig))
  : Exception + gmap State StateMetadata :=
  build_metadata_loop configs ∅.

(** ** A machine to run: the four states of the test-suite *)

Module Steps.
Definition A : State := mkState "Steps" "A" "a".
Definition B : State := mkState "Steps" "B" "b".
Definition C : State := mkState "Steps" "C" "c".
Definition ERROR : State := mkState "Steps" "ERROR" "error".
Definition members : list State := [A; B; C; ERROR].

(** A member of another enumeration. *)
Definition X : State := mkState "Other" "X" "x".

Definition meta (s : State) (retries : Z) (t : option Time)
    (failover : option State) : StateMetadata :=
  mkStateMetadata (st_name s) "" retries t failover.

(** A handler that always gives the same answer after [d] ticks. *)
Definition always (o : HandlerOutcome) (d : Time) : Handler :=
  fun _ _ => (o, d).



Definition handlers (a : Handler) : gmap string Handler :=
  list_to_map [("_handle_a", a);
               ("_handle_b", always (Returns SUCCESS) 1);
               ("_handle_c", always (Returns SUCCESS) 1);
               ("_handle_error", always (Returns SUCCESS) 1)].

Definition metadata (a : StateMetadata) : gmap State StateMetadata :=
  list_to_map [(A, a); (B, meta B 3 None None); (C, meta C 3 None None);
               (ERROR, meta ERROR 3 None None)].

Definition machine (a : StateMetadata) (transitions : list StateTransition)
    (h : Handler) : MachineClass :=
  mkMachineClass members (metadata a) transitions A (handlers h).

Definition w0 : World := mkWorld 1000 [].

(** The linear chain [A -> B -> C] of the tests, every handler succeeding. *)
Definition chain : MachineClass :=
  machine (meta A 3 None None)
    [mkStateTransition A B None; mkStateTransition B C None]
    (always (Returns SUCCESS) 1).

(** [test_invalid_initial_state_raises]: the initial state is a member of
    another enumeration. *)
Definition wrong_initial : MachineClass :=
  mkMachineClass members (metadata (meta A 3 None None)) [] X
    (handlers (always (Returns SUCCESS) 1)).

(** Four transitions out of [A]: a guard that raises, a guard that says
    no, no guard, and no guard again. *)
Definition guarded : MachineClass :=
  machine (meta A 3 None None)
    [mkStateTransition A B (Some (fun _ => GRaises "boom"));
     mkStateTransition B C None;
     mkStateTransition A C (Some (fun _ => GReturns false));
     mkStateTransition A ERROR None;
     mkStateTransition A B None]
    (always (Returns SUCCESS) 1).

(** [A] has no outgoing transition that passes. *)
Definition blocked : MachineClass :=
  machine (meta A 3 None None)
    [mkStateTransition A B (Some (fun _ => GRaises "boom"));
     mkStateTransition B C None]
    (always (Returns SUCCESS) 1).

(** [test_missing_handler_raises_attribute_error]: [_handle_a] is left
    out of the class. *)
Definition no_handler_a : MachineClass :=
  mkMachineClass members (metadata (meta A 3 None None)) [] A
    (list_to_map [("_handle_b", always (Returns SUCCESS) 1);
                  ("_handle_c", always (Returns SUCCESS) 1);
                  ("_handle_error", always (Returns SUCCESS) 1)]).

(** As in [test_failover_state_jumped_to_after_max_retries]: [A] has a
    failover state and a transition [A -> B]; its retry limit and timeout
    are given, and its handler answers [o] after [d] ticks. *)
Definition failing_over (retries : Z) (t : option Time) (failover : State)
    (o : HandlerOutcome) (d : Time) : MachineClass :=
  machine (meta A retries t (Some failover)) [mkStateTransition A B None]
    (always o d).


(** A state that fails over to itself: [A] with [failover_state = A], one
    retry, a handler that always fails, and a transition [A -> B]. *)
Definition self_failover : MachineClass :=
  failing_over 1 None A (Returns FAILURE) 1.

Definition entry (s : State) (r : StateResult) : StateHistoryEntry :=
  mkStateHistoryEntry s r 1 0 0 None.

Definition with_history (h : list StateHistoryEntry) : StateMachine :=
  set_state_history h (new_StateMachine w0).

(** The engine after a successful [initialize], or as it was. *)
Definition initialized (cls : MachineClass) : StateMachine :=
  match initialize cls (new_StateMachine w0) w0 with
  | Ok _ self _ => self
  | _ => new_StateMachine w0
  end.

(** The chain machine, watchdog enabled at 5000 ticks, last activity
    10000 ticks before [w0]. *)
Definition idle : StateMachine :=
  set_watchdog (Some 5000) (-9000) false (initialized chain).
End Steps.

(** ** Predicates used in the statements *)

(** The engine after the assignments of [initialize] that come before
    [_validate]. *)
Definition configured (cls : MachineClass) (self : StateMachine) : StateMachine :=
  set_configuration (define_states cls) (define_state_metadata cls)
    (define_transitions cls) (get_initial_state cls)
    (build_transition_map (define_transitions cls)) self.

(** A configuration that validation accepts: every state has metadata, the
    initial state is a state, and so are the two ends of every transition. *)
Definition well_formed (cls : MachineClass) : Prop :=
  (forall s, s ∈ define_states cls -> is_Some (define_state_metadata cls !! s)) /\
  get_initial_state cls ∈ define_states cls /\
  (forall t, t ∈ define_transitions cls ->
     from_state t ∈ define_states cls /\ to_state t ∈ define_states cls).

(** The message of a configuration error, with the defect it reports. *)
Inductive config_error (cls : MachineClass) : string -> Prop :=
| missing_metadata s :
    s ∈ define_states cls -> define_state_metadata cls !! s = None ->
    config_error cls ("State " +:+ str_state s +:+ " has no metadata defined")
| bad_initial_state :
    get_initial_state cls ∉ define_states cls ->
    config_error cls ("Initial state " +:+ str_state (get_initial_state cls)
                      +:+ " not found in states enum")
| bad_from_state t :
    t ∈ define_transitions cls -> from_state t ∉ define_states cls ->
    config_error cls ("Transition from_state " +:+ str_state (from_state t)
                      +:+ " not in states enum")
| bad_to_state t :
    t ∈ define_transitions cls -> to_state t ∉ define_states cls ->
    config_error cls ("Transition to_state " +:+ str_state (to_state t)
                      +:+ " not in states enum").

(** A handler invocation that fails: it returns [FAILURE] or it raises. *)
Definition fails (o : HandlerOutcome) : Prop :=
  o = Returns FAILURE \/ exists msg, o = Raises msg.

(** The handler always answers before the timeout of the state, if the
    state has one (a timeout is positive, [StateMetadata.__post_init__]). *)
Definition in_time (h : Handler) (metadata : StateMetadata) : Prop :=
  match timeout metadata with
  | None => True
  | Some t => 0 < t /\ forall ctx now, (h ctx now).2 < t
  end.

(** The error message of an attempt that makes one handler call. *)
Definition error_of (o : HandlerOutcome) : option string :=
  match o with
  | Raises msg => Some msg
  | Returns _ => None
  end.

(** The history entry of an attempt at retry index [r] that makes one
    handler call and is recorded with [result]. *)
Definition attempt_entry (h : Handler) (state : State) (r : Z)
    (result : StateResult) (w : World) : StateHistoryEntry :=
  let ctx := mkStateExecutionContext state r (clock w) in
  let w1 := (invoke h ctx w).2 in
  mkStateHistoryEntry state result (clock w1 - clock w) (clock w1) r
    (error_of (invoke h ctx w).1).

(** [k] failed attempts in a row, at retry indices [r], [r+1], ..., each of
    one handler call and each followed by a retry. *)
Fixpoint failed_attempts (h : Handler) (state : State) (r : Z) (k : nat)
    (self : StateMachine) (w : World) : StateMachine * World :=
  match k with
  | O => (self, w)
  | S k' =>
      let ctx := mkStateExecutionContext state r (clock w) in
      failed_attempts h state (r + 1) k'
        (retry_again state r
           (record_attempt (attempt_entry h state r FAILURE w) self))
        (invoke h ctx w).2
  end.

(** [n] failed attempts with a retry each, and then one more failed
    attempt, at retry index [n], that is settled: what an always-failing
    handler makes of a state with [max_retries = n]. *)
Definition exhausted (h : Handler) (state : State) (metadata : StateMetadata)
    (n : nat) (self : StateMachine) (w : World) : StateMachine * World :=
  let selfn := (failed_attempts h state 0 n self w).1 in
  let wn := (failed_attempts h state 0 n self w).2 in
  let ctx := mkStateExecutionContext state (Z.of_nat n) (clock wn) in
  (settle state metadata FAILURE
     (record_attempt (attempt_entry h state (Z.of_nat n) FAILURE wn) selfn),
   (invoke h ctx wn).2).

(** The outcome is [Ok], and its value, engine and world satisfy [P]. *)
Definition outcome_is {A} (o : Outcome A)
    (P : A -> StateMachine -> World -> Prop) : Prop :=
  match o with
  | Ok a self w => P a self w
  | _ => False
  end.

(** Whatever the outcome, [Ok] or an exception, the engine and the world
    it leaves satisfy [P]. *)
Definition ends_with {A} (o : Outcome A) (P : StateMachine -> World -> Prop)
  : Prop :=
  match o with
  | Ok _ self w => P self w
  | Exn _ self w => P self w
  | OutOfFuel => True
  end.

(** The two engines have the same configuration and the same watchdog
    settings: they differ at most in current state, history, retry
    counters and the warning flag of the watchdog. *)
Definition same_configuration (self self' : StateMachine) : Prop :=
  _states self' = _states self /\
  _state_metadata self' = _state_metadata self /\
  _transitions self' = _transitions self /\
  _transition_map self' = _transition_map self /\
  _initialized self' = _initialized self /\
  _watchdog_timeout self' = _watchdog_timeout self /\
  _watchdog_last_activity self' = _watchdog_last_activity self.

(** A compact configuration that [build_metadata_dict] accepts. *)
Definition config_ok (config : MetadataConfig) : Prop :=
  is_Some (cfg_name config) /\
  0 <= default 3 (cfg_max_retries config) /\
  (forall t, cfg_timeout config = Some t -> 0 < t).

(** The metadata that [build_metadata_dict] makes of a configuration. *)
Definition metadata_of (config : MetadataConfig) : StateMetadata :=
  mkStateMetadata (default "" (cfg_name config))
    (default "" (cfg_description config))
    (default 3 (cfg_max_retries config))
    (cfg_timeout config) (cfg_failover config).

(** If the outcome is an exception, it satisfies [P]. *)
Definition raises_only {A} (o : Outcome A) (P : Exception -> Prop) : Prop :=
  match o with
  | Exn e _ _ => P e
  | _ => True
  end.

(** The exceptions of the engine itself: the watchdog, a state without
    metadata, a state without handler. *)
Definition engine_error (cls : MachineClass) (e : Exception) : Prop :=
  (exists msg, e = RuntimeError msg) \/
  (exists key, e = KeyError key) \/
  (exists state, _get_state_handler cls state = inl e).

(** The timeout of metadata that [StateMetadata.__post_init__] accepts:
    none, or a positive one. *)
Definition valid_timeout (metadata : StateMetadata) : Prop :=
  forall t, timeout metadata = Some t -> 0 < t.

(** The result, the error message and the world of an attempt at retry
    index [r] that makes one handler call: the check after the loop turns
    a result that came too late into [TIMEOUT]. *)
Definition attempt_outcome (h : Handler) (metadata : StateMetadata)
    (state : State) (r : Z) (w : World) : StateResult * option string * World :=
  let ctx := mkStateExecutionContext state r (clock w) in
  let w1 := (invoke h ctx w).2 in
  match (invoke h ctx w).1 with
  | Raises msg => (FAILURE, Some msg, w1)
  | Returns res =>
      if has_timed_out ctx (clock w1) (timeout metadata) then
        (TIMEOUT, Some (timeout_message (timeout metadata)), w1)
      else (res, None, w1)
  end.

(** The history entry of that attempt. *)
Definition attempt_record (h : Handler) (metadata : StateMetadata)
    (state : State) (r : Z) (w : World) : StateHistoryEntry :=
  let o := attempt_outcome h metadata state r w in
  mkStateHistoryEntry state o.1.1 (clock o.2 - clock w) (clock o.2) r o.1.2.

(** [k] attempts of one handler call each, at retry indices [r], [r+1],
    ..., each recorded and followed by a retry. *)
Fixpoint retried_attempts (h : Handler) (metadata : StateMetadata)
    (state : State) (r : Z) (k : nat) (self : StateMachine) (w : World)
  : StateMachine * World :=
  match k with
  | O => (self, w)
  | S k' =>
      retried_attempts h metadata state (r + 1) k'
        (retry_again state r
           (record_attempt (attempt_record h metadata state r w) self))
        (attempt_outcome h metadata state r w).2
  end.

(** The same configuration, watchdog settings apart. *)
Definition same_definitions (self self' : StateMachine) : Prop :=
  _states self' = _states self /\
  _state_metadata self' = _state_metadata self /\
  _transitions self' = _transitions self /\
  _transition_map self' = _transition_map self /\
  _initialized self' = _initialized self.

(** * Properties *)

(** ** History queries *)

Lemma slice_from_0 {A} (l : list A) : slice_from 0 l = l.
Proof.
  unfold slice_from. rewrite bool_decide_eq_false_2 by lia.
  replace (Z.to_nat (Z.min 0 (Z.of_nat (length l)))) with 0%nat by lia.
  reflexivity.
Qed.

Lemma slice_from_neg {A} (n : Z) (l : list A) :
  1 <= n ->
  slice_from (- n) l
  = drop (length l - Z.to_nat (Z.min n (Z.of_nat (length l)))) l.
Proof.
  intros Hn. unfold slice_from. rewrite bool_decide_eq_true_2 by lia.
  f_equal. lia.
Qed.

(** C10. [get_history(last_n=0)] is the whole history, as with no argument;
    for [last_n >= 1] it is the last [min(last_n, length)] entries, a
    suffix of the history in its order. *)
Theorem get_history_last_n (self : StateMachine) :
  get_history self (Some 0) = get_history self None /\
  get_history self None = _state_history self /\
  forall n : Z, 1 <= n ->
    let len := length (_state_history self) in
    let k := Z.to_nat (Z.min n (Z.of_nat len)) in
    get_history self (Some n) = drop (len - k) (_state_history self) /\
    length (get_history self (Some n)) = k.
Proof.
  split; [|split].
  - simpl. apply slice_from_0.
  - reflexivity.
  - intros n Hn len k. unfold get_history.
    rewrite slice_from_neg by exact Hn. fold len k. split; [reflexivity|].
    rewrite length_drop. fold len. lia.
Qed.

(** ** Initialisation and validation *)

Lemma validate_metadata_None states (metadata : gmap State StateMetadata) :
  validate_metadata states metadata = None <->
  forall s, s ∈ states -> is_Some (metadata !! s).
Proof.
  induction states as [|s0 rest IH]; simpl.
  - split; [intros _ s Hs; inversion Hs | done].
  - destruct (metadata !! s0) eqn:E.
    + rewrite IH. split.
      * intros H x Hx. apply elem_of_cons in Hx as [->|Hx]; [by rewrite E|auto].
      * intros H x Hx. apply H. by right.
    + split; [done|]. intros H. destruct (H s0) as [? Hx]; [by left|congruence].
Qed.

Lemma validate_metadata_Some states (metadata : gmap State StateMetadata) e :
  validate_metadata states metadata = Some e ->
  exists s, s ∈ states /\ metadata !! s = None /\
    e = ValueError ("State " +:+ str_state s +:+ " has no metadata defined").
Proof.
  induction states as [|s0 rest IH]; simpl; [done|].
  destruct (metadata !! s0) as [md|] eqn:E.
  - intros H. destruct (IH H) as (s & Hs & Hm & He). exists s. split; [by right|done].
  - intros [= <-]. exists s0. split; [by left|done].
Qed.

Lemma validate_transitions_None states transitions :
  validate_transitions states transitions = None <->
  forall t, t ∈ transitions -> from_state t ∈ states /\ to_state t ∈ states.
Proof.
  induction transitions as [|t0 rest IH]; simpl.
  - split; [intros _ t Ht; inversion Ht | done].
  - destruct (decide (from_state t0 ∈ states)) as [Hf|Hf].
    + rewrite (bool_decide_eq_true_2 _ Hf). simpl.
      destruct (decide (to_state t0 ∈ states)) as [Ht|Ht].
      * rewrite (bool_decide_eq_true_2 _ Ht). simpl. rewrite IH. split.
        -- intros H t Hin. apply elem_of_cons in Hin as [->|Hin]; auto.
        -- intros H t Hin. apply H. by right.
      * rewrite (bool_decide_eq_false_2 _ Ht). simpl. split; [done|].
        intros H. destruct (H t0); [by left|done].
    + rewrite (bool_decide_eq_false_2 _ Hf). simpl. split; [done|].
      intros H. destruct (H t0); [by left|done].
Qed.

Lemma validate_transitions_Some states transitions e :
  validate_transitions states transitions = Some e ->
  exists t, t ∈ transitions /\
    (((from_state t ∉ states) /\
      e = ValueError ("Transition from_state " +:+ str_state (from_state t)
                      +:+ " not in states enum")) \/
     ((to_state t ∉ states) /\
      e = ValueError ("Transition to_state " +:+ str_state (to_state t)
                      +:+ " not in states enum"))).
Proof.
  induction transitions as [|t0 rest IH]; simpl; [done|].
  destruct (decide (from_state t0 ∈ states)) as [Hf|Hf].
  - rewrite (bool_decide_eq_true_2 _ Hf). simpl.
    destruct (decide (to_state t0 ∈ states)) as [Ht|Ht].
    + rewrite (bool_decide_eq_true_2 _ Ht). simpl. intros H.
      destruct (IH H) as (t & Hin & Hcase). exists t. split; [by right|done].
    + rewrite (bool_decide_eq_false_2 _ Ht). simpl. intros [= <-].
      exists t0. split; [by left|]. right. done.
  - rewrite (bool_decide_eq_false_2 _ Hf). simpl. intros [= <-].
    exists t0. split; [by left|]. left. done.
Qed.

Lemma validate_configured_None cls self :
  _validate (configured cls self) = None <-> well_formed cls.
Proof.
  unfold _validate, configured, well_formed. simpl.
  destruct (validate_metadata _ _) eqn:Em.
  - split; [done|]. intros (Hm & _ & _).
    apply (proj2 (validate_metadata_None _ _)) in Hm. congruence.
  - pose proof (proj1 (validate_metadata_None _ _) Em) as Hm.
    destruct (decide (get_initial_state cls ∈ define_states cls)) as [Hi|Hi].
    + rewrite (bool_decide_eq_true_2 _ Hi). simpl.
      rewrite validate_transitions_None. tauto.
    + rewrite (bool_decide_eq_false_2 _ Hi). simpl. split; [done|tauto].
Qed.

Lemma validate_configured_Some cls self e :
  _validate (configured cls self) = Some e ->
  exists msg, e = ValueError msg /\ config_error cls msg.
Proof.
  unfold _validate, configured. simpl.
  destruct (validate_metadata _ _) eqn:Em.
  - intros [= <-]. apply validate_metadata_Some in Em as (s & Hs & Hm & ->).
    eexists. split; [reflexivity|]. by constructor.
  - destruct (decide (get_initial_state cls ∈ define_states cls)) as [Hi|Hi].
    + rewrite (bool_decide_eq_true_2 _ Hi). simpl. intros Ht.
      apply validate_transitions_Some in Ht as (t & Hin & [[Hf ->]|[Hf ->]]);
        (eexists; split; [reflexivity|]).
      * by apply bad_from_state.
      * by apply bad_to_state.
    + rewrite (bool_decide_eq_false_2 _ Hi). simpl. intros [= <-].
      eexists. split; [reflexivity|]. by constructor.
Qed.

Lemma initialize_done cls self w :
  _initialized self = true -> initialize cls self w = Ok tt self w.
Proof. intros H. unfold initialize, bind, get_self. by rewrite H. Qed.

Lemma initialize_accepts cls self w :
  _initialized self = false -> well_formed cls ->
  initialize cls self w = Ok tt (set_initialized true (configured cls self)) w.
Proof.
  intros Hi Hwf. unfold initialize, bind, get_self. rewrite Hi.
  unfold update_self at 1. fold (configured cls self).
  apply (validate_configured_None cls self) in Hwf. by rewrite Hwf.
Qed.

Lemma initialize_rejects cls self w :
  _initialized self = false -> ~ well_formed cls ->
  exists msg, config_error cls msg /\
    initialize cls self w = Exn (ValueError msg) (configured cls self) w.
Proof.
  intros Hi Hwf. unfold initialize, bind, get_self. rewrite Hi.
  unfold update_self at 1. fold (configured cls self).
  destruct (_validate (configured cls self)) as [e|] eqn:Ev.
  - apply validate_configured_Some in Ev as (msg & -> & Hmsg).
    exists msg. split; [done|reflexivity].
  - apply validate_configured_None in Ev. contradiction.
Qed.

(** C8. For a well-formed configuration [initialize] succeeds, and calling
    it again, at any later time, leaves the engine exactly as the first call
    left it. *)
Theorem initialize_idempotent cls self w :
  well_formed cls -> _initialized self = false ->
  exists self1,
    initialize cls self w = Ok tt self1 w /\
    forall w', initialize cls self1 w' = Ok tt self1 w'.
Proof.
  intros Hwf Hi. eexists. split.
  - by apply initialize_accepts.
  - intros w'. by apply initialize_done.
Qed.

Lemma initialize_idempotent_witness :
  exists self1,
    initialize Steps.chain (new_StateMachine Steps.w0) Steps.w0
    = Ok tt self1 Steps.w0 /\
    forall w', initialize Steps.chain self1 w' = Ok tt self1 w'.
Proof.
  apply (initialize_idempotent Steps.chain (new_StateMachine Steps.w0) Steps.w0).
  - apply (proj1 (validate_configured_None Steps.chain (new_StateMachine Steps.w0))).
    vm_compute. reflexivity.
  - reflexivity.
Defined.

Lemma configured_configured cls cls' self :
  configured cls' (configured cls self) = configured cls' self.
Proof. reflexivity. Qed.

(** C3, as the code has it.  When validation rejects the configuration,
    [initialize] raises a [ValueError] whose message names the defect, and
    the engine stays uninitialised: its history, retry counters and
    watchdog are untouched, but the configuration fields (state set,
    metadata, transitions, current state, transition map) already hold the
    rejected configuration.  A later [initialize] with a well-formed
    configuration succeeds, and gives the engine that it would have given
    without the failed call. *)
Theorem initialize_invalid_configuration cls self w :
  _initialized self = false -> ~ well_formed cls ->
  exists msg,
    config_error cls msg /\
    initialize cls self w = Exn (ValueError msg) (configured cls self) w /\
    _initialized (configured cls self) = false /\
    _state_history (configured cls self) = _state_history self /\
    _retry_counts (configured cls self) = _retry_counts self /\
    _watchdog_timeout (configured cls self) = _watchdog_timeout self /\
    _watchdog_last_activity (configured cls self) = _watchdog_last_activity self /\
    _watchdog_warned (configured cls self) = _watchdog_warned self /\
    _current_state (configured cls self) = Some (get_initial_state cls) /\
    forall cls' w', well_formed cls' ->
      initialize cls' (configured cls self) w'
      = Ok tt (set_initialized true (configured cls' self)) w' /\
      initialize cls' (configured cls self) w' = initialize cls' self w'.
Proof.
  intros Hi Hwf.
  destruct (initialize_rejects cls self w Hi Hwf) as (msg & Hmsg & Hinit).
  exists msg. repeat split; try done.
  - rewrite initialize_accepts by done. by rewrite configured_configured.
  - by rewrite !initialize_accepts.
Qed.

Lemma wrong_initial_not_well_formed : ~ well_formed Steps.wrong_initial.
Proof.
  intros H.
  apply (proj2 (validate_configured_None Steps.wrong_initial
                  (new_StateMachine Steps.w0))) in H.
  vm_compute in H. discriminate H.
Defined.

Lemma initialize_invalid_configuration_witness :
  exists msg,
    initialize Steps.wrong_initial (new_StateMachine Steps.w0) Steps.w0
    = Exn (ValueError msg)
        (configured Steps.wrong_initial (new_StateMachine Steps.w0)) Steps.w0 /\
    initialize Steps.chain
      (configured Steps.wrong_initial (new_StateMachine Steps.w0)) Steps.w0
    = initialize Steps.chain (new_StateMachine Steps.w0) Steps.w0.
Proof.
  destruct (initialize_invalid_configuration Steps.wrong_initial
              (new_StateMachine Steps.w0) Steps.w0)
    as (msg & _ & Hexn & _ & _ & _ & _ & _ & _ & _ & Hfix).
  - reflexivity.
  - exact wrong_initial_not_well_formed.
  - exists msg. split; [exact Hexn|].
    apply Hfix.
    apply (proj1 (validate_configured_None Steps.chain (new_StateMachine Steps.w0))).
    vm_compute. reflexivity.
Defined.

(** C3 as it is written fails: a rejected [initialize] leaves the rejected
    initial state behind as the current state, which [get_current_state]
    shows. *)
Lemma initialize_failure_is_observable :
  ~ (forall cls self w e self' w',
       initialize cls self w = Exn e self' w' ->
       get_current_state self' = get_current_state self).
Proof.
  intros H.
  specialize (H Steps.wrong_initial (new_StateMachine Steps.w0) Steps.w0
                (ValueError "Initial state Other.X not found in states enum")
                (configured Steps.wrong_initial (new_StateMachine Steps.w0))
                Steps.w0).
  assert (Hrun : initialize Steps.wrong_initial (new_StateMachine Steps.w0) Steps.w0
                 = Exn (ValueError "Initial state Other.X not found in states enum")
                     (configured Steps.wrong_initial (new_StateMachine Steps.w0))
                     Steps.w0) by (vm_compute; reflexivity).
  specialize (H Hrun). vm_compute in H. discriminate H.
Qed.

Lemma get_history_last_n_witness :
  let self := Steps.with_history
                [Steps.entry Steps.A SUCCESS; Steps.entry Steps.B SUCCESS;
                 Steps.entry Steps.C SUCCESS] in
  1 <= 2 /\
  get_history self (Some 0) = get_history self None /\
  get_history self (Some 2)
  = [Steps.entry Steps.B SUCCESS; Steps.entry Steps.C SUCCESS].
Proof.
  intros self.
  destruct (get_history_last_n self) as (H0 & _ & Hn).
  split; [lia|]. split; [exact H0|].
  destruct (Hn 2) as [Heq _]; [lia|]. exact Heq.
Defined.

(** ** Transition selection *)

Lemma build_transition_map_acc transitions
    (tm : gmap State (list StateTransition)) (s : State) :
  default [] (fold_left
                (fun (tm : gmap State (list StateTransition)) t =>
                   <[from_state t := default [] (tm !! from_state t) ++ [t]]> tm)
                transitions tm !! s)
  = default [] (tm !! s) ++ filter (fun t => from_state t = s) transitions.
Proof.
  revert tm. induction transitions as [|t rest IH]; intros tm; simpl.
  - by rewrite app_nil_r.
  - rewrite IH. rewrite filter_cons.
    destruct (decide (from_state t = s)) as [->|Hne].
    + rewrite lookup_insert_eq. simpl. by rewrite <- app_assoc.
    + by rewrite lookup_insert_ne.
Qed.

(** The candidates of a state are its transitions, in declaration order. *)
Lemma build_transition_map_lookup transitions (s : State) :
  default [] (build_transition_map transitions !! s)
  = filter (fun t => from_state t = s) transitions.
Proof.
  unfold build_transition_map. rewrite build_transition_map_acc.
  by rewrite lookup_empty.
Qed.

Lemma first_passing_first candidates now pre t post :
  candidates = pre ++ t :: post ->
  Forall (fun t' => can_transition t' now = false) pre ->
  can_transition t now = true ->
  first_passing candidates now = Some (to_state t).
Proof.
  intros -> Hpre Ht. induction Hpre as [|t' pre' Ht' _ IH]; simpl.
  - by rewrite Ht.
  - by rewrite Ht'.
Qed.

Lemma first_passing_none candidates now :
  Forall (fun t => can_transition t now = false) candidates <->
  first_passing candidates now = None.
Proof.
  induction candidates as [|t rest IH]; simpl.
  - split; [done|constructor].
  - destruct (can_transition t now) eqn:Et.
    + split; [|done]. intros H. inversion H; congruence.
    + rewrite <- IH. split.
      * intros H. by inversion H.
      * intros H. by constructor.
Qed.

(** Either some transition is the first to pass, or none passes. *)
Lemma first_passing_split candidates now :
  (exists pre t post,
     candidates = pre ++ t :: post /\
     Forall (fun t' => can_transition t' now = false) pre /\
     can_transition t now = true) \/
  Forall (fun t => can_transition t now = false) candidates.
Proof.
  induction candidates as [|t rest IH].
  - right. constructor.
  - destruct (can_transition t now) eqn:Et.
    + left. exists [], t, rest. repeat split; [constructor|done].
    + destruct IH as [(pre & t1 & post & -> & Hpre & H1)|Hall].
      * left. exists (t :: pre), t1, post. repeat split; [by constructor|done].
      * right. by constructor.
Qed.

Lemma can_transition_spec t now :
  can_transition t now = true <->
  condition t = None \/ exists c, condition t = Some c /\ c now = GReturns true.
Proof.
  unfold can_transition. destruct (condition t) as [c|].
  - destruct (c now) as [b|msg] eqn:Ec.
    + split.
      * intros ->. right. by exists c.
      * intros [H|(c' & [= <-] & Hc)]; [done|congruence].
    + split; [done|]. intros [H|(c' & [= <-] & Hc)]; [done|congruence].
  - split; [by left|done].
Qed.

(** ** One iteration of the run loop *)

Lemma run_loop_iteration fuel cls k steps self w selfc current result self1 w1 :
  _check_watchdog self w = Ok tt selfc w ->
  _current_state selfc = Some current ->
  _execute_state fuel cls current selfc w = Ok result self1 w1 ->
  run_loop fuel cls (S k) steps self w
  = if negb (bool_decide (_current_state self1 = Some current)) then
      run_loop fuel cls k (S steps) self1 w1
    else
      match _get_next_state self1 current result (clock w1) with
      | None => Ok steps self1 w1
      | Some next_state =>
          run_loop fuel cls k (S steps)
            (set_current_state (Some next_state) self1) w1
      end.
Proof.
  intros Hwd Hcur Hexec. simpl. unfold bind at 1. rewrite Hwd.
  unfold bind at 1, get_self at 1. rewrite Hcur.
  unfold bind at 1. rewrite Hexec.
  unfold bind at 1, get_self at 1.
  destruct (negb (bool_decide (_current_state self1 = Some current))); [done|].
  unfold bind at 1, time_time at 1.
  destruct (_get_next_state self1 current result (clock w1)); reflexivity.
Qed.

Lemma run_loop_raises fuel cls k steps self w selfc current e self1 w1 :
  _check_watchdog self w = Ok tt selfc w ->
  _current_state selfc = Some current ->
  _execute_state fuel cls current selfc w = Exn e self1 w1 ->
  run_loop fuel cls (S k) steps self w = Exn e self1 w1.
Proof.
  intros Hwd Hcur Hexec. simpl. unfold bind at 1. rewrite Hwd.
  unfold bind at 1, get_self at 1. rewrite Hcur.
  unfold bind at 1. by rewrite Hexec.
Qed.

(** C4. The candidates for a state are its transitions in declaration
    order; selection returns the target of the first one whose guard is
    absent or returns true, a guard that raises counts as false and nothing
    is raised by the selection, and when no candidate passes the selection
    returns nothing and the run loop ends there, normally. *)
Theorem next_state_selection (self : StateMachine) (current : State)
    (result : StateResult) (now : Time) :
  _transition_map self = build_transition_map (_transitions self) ->
  let candidates := filter (fun t => from_state t = current) (_transitions self) in
  (forall t, can_transition t now = true <->
     condition t = None \/ exists c, condition t = Some c /\ c now = GReturns true) /\
  (forall t c msg, condition t = Some c -> c now = GRaises msg ->
     can_transition t now = false) /\
  (forall pre t post,
     candidates = pre ++ t :: post ->
     Forall (fun t' => can_transition t' now = false) pre ->
     can_transition t now = true ->
     _get_next_state self current result now = Some (to_state t)) /\
  (Forall (fun t => can_transition t now = false) candidates <->
   _get_next_state self current result now = None) /\
  ((exists pre t post,
      candidates = pre ++ t :: post /\
      Forall (fun t' => can_transition t' now = false) pre /\
      can_transition t now = true) \/
   Forall (fun t => can_transition t now = false) candidates) /\
  (forall fuel cls k steps self0 selfc w0 w1,
     _check_watchdog self0 w0 = Ok tt selfc w0 ->
     _current_state selfc = Some current ->
     _execute_state fuel cls current selfc w0 = Ok result self w1 ->
     _current_state self = Some current ->
     clock w1 = now ->
     _get_next_state self current result now = None ->
     run_loop fuel cls (S k) steps self0 w0 = Ok steps self w1).
Proof.
  intros Hmap candidates.
  assert (Hcand : default [] (_transition_map self !! current) = candidates).
  { rewrite Hmap. apply build_transition_map_lookup. }
  split; [intros t; apply can_transition_spec|].
  split.
  { intros t c msg Hc Hr. unfold can_transition. by rewrite Hc, Hr. }
  unfold _get_next_state. rewrite Hcand.
  split; [intros pre t post; apply first_passing_first|].
  split; [apply first_passing_none|].
  split; [apply first_passing_split|].
  intros fuel cls k steps self0 selfc w0 w1 Hwd Hcur Hexec Hsame Hnow Hnone.
  rewrite (run_loop_iteration _ _ _ _ _ _ _ _ _ _ _ Hwd Hcur Hexec).
  rewrite (bool_decide_eq_true_2 _ Hsame). simpl.
  unfold _get_next_state. rewrite Hcand, Hnow. by rewrite Hnone.
Qed.

(** [initialize] leaves the lookup map built from the transition list. *)
Lemma initialize_transition_map cls self w self' w' :
  _initialized self = false ->
  initialize cls self w = Ok tt self' w' ->
  _transition_map self' = build_transition_map (_transitions self').
Proof.
  intros Hi. unfold initialize, bind, get_self. rewrite Hi.
  unfold update_self at 1. fold (configured cls self).
  destruct (_validate (configured cls self)); [done|].
  unfold update_self. intros [= <- <-]. reflexivity.
Qed.

Lemma initialized_transition_map cls :
  _transition_map (Steps.initialized cls)
  = build_transition_map (_transitions (Steps.initialized cls)).
Proof.
  unfold Steps.initialized, initialize, bind, get_self. simpl.
  unfold update_self at 1.
  destruct (_validate _); reflexivity.
Qed.

Lemma next_state_selection_witness :
  let self := Steps.initialized Steps.guarded in
  _transition_map self = build_transition_map (_transitions self) /\
  _get_next_state self Steps.A SUCCESS 0 = Some Steps.ERROR.
Proof.
  intros self.
  pose proof (initialized_transition_map Steps.guarded) as Hmap.
  split; [exact Hmap|].
  destruct (next_state_selection self Steps.A SUCCESS 0 Hmap)
    as (_ & _ & Hfirst & _).
  apply (Hfirst
           [mkStateTransition Steps.A Steps.B (Some (fun _ => GRaises "boom"));
            mkStateTransition Steps.A Steps.C (Some (fun _ => GReturns false))]
           (mkStateTransition Steps.A Steps.ERROR None)
           [mkStateTransition Steps.A Steps.B None]).
  - vm_compute. reflexivity.
  - repeat constructor.
  - reflexivity.
Defined.

(** ** The watchdog *)

Lemma check_watchdog_disabled self w :
  _watchdog_timeout self = None -> _check_watchdog self w = Ok tt self w.
Proof. intros H. unfold _check_watchdog, bind, get_self. by rewrite H. Qed.

Lemma check_watchdog_idle self w T :
  _watchdog_timeout self = Some T ->
  T <= clock w - _watchdog_last_activity self ->
  _check_watchdog self w
  = Exn (RuntimeError (watchdog_message (clock w - _watchdog_last_activity self) T))
      self w.
Proof.
  intros HT Hidle. unfold _check_watchdog, bind, get_self, time_time.
  rewrite HT. by rewrite bool_decide_eq_true_2.
Qed.

Lemma check_watchdog_active self w T :
  _watchdog_timeout self = Some T ->
  clock w - _watchdog_last_activity self < T ->
  exists self',
    _check_watchdog self w = Ok tt self' w /\
    _watchdog_timeout self' = Some T /\
    _watchdog_last_activity self' = _watchdog_last_activity self /\
    _current_state self' = _current_state self /\
    _state_history self' = _state_history self /\
    _retry_counts self' = _retry_counts self.
Proof.
  intros HT Hidle. unfold _check_watchdog, bind, get_self, time_time.
  rewrite HT. rewrite bool_decide_eq_false_2 by lia.
  destruct (_ && _).
  - eexists. split; [reflexivity|]. cbn. repeat split; try exact HT.
  - eexists. split; [reflexivity|]. repeat split; try exact HT.
Qed.

(** C7. With the watchdog enabled at threshold [T], a run-loop iteration
    that starts with an idle time of at least [T] raises the watchdog error
    and nothing else happens (no handler runs, the engine is unchanged);
    [record_activity] sets the idle clock to now and clears the warning
    flag, so that a check made less than [T] later passes; and with the
    watchdog not enabled the check never raises. *)
Theorem watchdog_abort (self : StateMachine) (w : World) :
  (forall T, exists self',
     enable_watchdog T self w = Ok tt self' w /\
     _watchdog_timeout self' = Some T /\
     _watchdog_last_activity self' = clock w /\
     _watchdog_warned self' = false) /\
  (forall T fuel cls k steps,
     _watchdog_timeout self = Some T ->
     T <= clock w - _watchdog_last_activity self ->
     run_loop fuel cls (S k) steps self w
     = Exn (RuntimeError
              (watchdog_message (clock w - _watchdog_last_activity self) T))
         self w) /\
  (exists self',
     record_activity self w = Ok tt self' w /\
     _watchdog_last_activity self' = clock w /\
     _watchdog_warned self' = false /\
     _watchdog_timeout self' = _watchdog_timeout self /\
     forall T w', _watchdog_timeout self = Some T -> clock w' - clock w < T ->
       exists self'', _check_watchdog self' w' = Ok tt self'' w') /\
  (_watchdog_timeout self = None -> _check_watchdog self w = Ok tt self w) /\
  _watchdog_timeout (new_StateMachine w) = None.
Proof.
  split; [|split; [|split; [|split]]].
  - intros T. eexists. split; [reflexivity|]. done.
  - intros T fuel cls k steps HT Hidle. simpl. unfold bind at 1.
    by rewrite (check_watchdog_idle self w T HT Hidle).
  - eexists. split; [reflexivity|]. repeat split.
    intros T w' HT Hidle.
    destruct (check_watchdog_active
                (set_watchdog (_watchdog_timeout self) (clock w) false self) w' T)
      as (self'' & Hok & _); [exact HT|exact Hidle|].
    by exists self''.
  - apply check_watchdog_disabled.
  - reflexivity.
Qed.

Lemma watchdog_abort_witness :
  let self := Steps.idle in
  _watchdog_timeout self = Some 5000 /\
  5000 <= clock Steps.w0 - _watchdog_last_activity self /\
  run_loop 10 Steps.chain 100 0 self Steps.w0
  = Exn (RuntimeError (watchdog_message 10000 5000)) self Steps.w0 /\
  exists self' self'',
    record_activity self Steps.w0 = Ok tt self' Steps.w0 /\
    _check_watchdog self' (sleep 4999 Steps.w0) = Ok tt self'' (sleep 4999 Steps.w0).
Proof.
  intros self.
  assert (HT : _watchdog_timeout self = Some 5000) by reflexivity.
  assert (Hidle : 5000 <= clock Steps.w0 - _watchdog_last_activity self)
    by (vm_compute; discriminate).
  destruct (watchdog_abort self Steps.w0)
    as (_ & Habort & (self' & Hrec & _ & _ & _ & Hpass) & _).
  split; [exact HT|]. split; [exact Hidle|]. split.
  - exact (Habort 5000 10%nat Steps.chain 99%nat 0%nat HT Hidle).
  - destruct (Hpass 5000 (sleep 4999 Steps.w0) HT) as (self'' & Hok).
    + vm_compute. reflexivity.
    + exists self', self''. split; [exact Hrec|exact Hok].
Defined.

(** ** Executing a state: the handler and the attempt *)

Lemma execute_state_attempt fuel cls (state : State) md h self w result err w1 :
  _state_metadata self !! state = Some md ->
  methods cls !! handler_name state = Some h ->
  attempt (S fuel) h
    (mkStateExecutionContext state (default 0 (_retry_counts self !! state)) (clock w))
    md w = Some (result, err, w1) ->
  _execute_state (S fuel) cls state self w
  = let rc := default 0 (_retry_counts self !! state) in
    let self1 :=
      record_attempt
        (mkStateHistoryEntry state result (clock w1 - clock w) (clock w1) rc err)
        self in
    if is_failure result && bool_decide (rc < max_retries md) then
      _execute_state fuel cls state (retry_again state rc self1) w1
    else Ok result (settle state md result self1) w1.
Proof.
  intros Hmd Hh Hatt. cbn [_execute_state]. rewrite Hmd.
  unfold _get_state_handler. rewrite Hh. cbv zeta. by rewrite Hatt.
Qed.

(** C6. A state that has metadata but no handler: [_execute_state] raises
    the [AttributeError] of [_get_state_handler] with the engine and the
    world exactly as they were (no history entry, no handler invocation, no
    retry counter touched), and the run loop passes the error on. *)
Theorem missing_handler_is_fatal cls (state : State) md self w fuel :
  _state_metadata self !! state = Some md ->
  methods cls !! handler_name state = None ->
  exists msg,
    _get_state_handler cls state = inl (AttributeError msg) /\
    _execute_state (S fuel) cls state self w = Exn (AttributeError msg) self w /\
    forall k steps self0,
      _check_watchdog self0 w = Ok tt self w ->
      _current_state self = Some state ->
      run_loop (S fuel) cls (S k) steps self0 w = Exn (AttributeError msg) self w.
Proof.
  intros Hmd Hh. eexists.
  assert (Hget : _get_state_handler cls state = inl (AttributeError
            ("No handler '" +:+ handler_name state
             +:+ "' found. Implement this method to handle the '"
             +:+ st_name state +:+ "' state."))).
  { unfold _get_state_handler. by rewrite Hh. }
  assert (Hexec : _execute_state (S fuel) cls state self w
                  = Exn (AttributeError
            ("No handler '" +:+ handler_name state
             +:+ "' found. Implement this method to handle the '"
             +:+ st_name state +:+ "' state.")) self w).
  { cbn [_execute_state]. rewrite Hmd. cbv zeta. by rewrite Hget. }
  split; [exact Hget|]. split; [exact Hexec|].
  intros k steps self0 Hwd Hcur.
  exact (run_loop_raises _ _ _ _ _ _ _ _ _ _ _ Hwd Hcur Hexec).
Qed.

Lemma missing_handler_is_fatal_witness :
  let self := Steps.initialized Steps.no_handler_a in
  exists msg,
    run_loop 10 Steps.no_handler_a 100 0 self Steps.w0
    = Exn (AttributeError msg) self Steps.w0 /\
    _state_history self = [] /\ invocations Steps.w0 = [].
Proof.
  intros self.
  destruct (missing_handler_is_fatal Steps.no_handler_a Steps.A
              (Steps.meta Steps.A 3 None None) self Steps.w0 9%nat)
    as (msg & _ & _ & Hrun).
  - vm_compute. reflexivity.
  - vm_compute. reflexivity.
  - exists msg. split; [|split; reflexivity].
    apply Hrun; vm_compute; reflexivity.
Defined.

(** ** Timeouts *)

Lemma handler_loop_unbounded fuel h ctx result w o w1 :
  handler_loop fuel h ctx None result w = Some (o, w1) ->
  exists now d, h ctx now = (o, d).
Proof.
  revert result w. induction fuel as [|fuel IH]; intros result w; simpl; [done|].
  unfold invoke. destruct (h ctx (clock w)) as [o' d] eqn:Eh.
  destruct o' as [r|msg].
  - destruct (negb (bool_decide (r = RETRY))) eqn:Er.
    + intros [= <- <-]. by exists (clock w), d.
    + apply IH.
  - intros [= <- <-]. by exists (clock w), d.
Qed.

Lemma settle_history (state : State) md result self :
  _state_history (settle state md result self) = _state_history self.
Proof.
  unfold settle. destruct (is_failure result); destruct (failover_state md);
    destruct (bool_decide (result = SUCCESS)); reflexivity.
Qed.

(** The entry that [record_attempt] appends is the newest of the history,
    and neither the retry nor the end of [_execute_state] touches the
    history. *)
Lemma deque_append_last {A} (d : list A) (x : A) :
  last (deque_append HISTORY_MAXLEN d x) = Some x.
Proof.
  unfold deque_append. rewrite length_app. simpl length.
  rewrite drop_app_le by (unfold HISTORY_MAXLEN; lia).
  apply last_snoc.
Qed.

Lemma record_attempt_history entry self :
  _state_history (record_attempt entry self)
  = deque_append HISTORY_MAXLEN (_state_history self) entry /\
  last (_state_history (record_attempt entry self)) = Some entry.
Proof.
  split; [reflexivity|]. apply deque_append_last.
Qed.

(** C5. The timeout predicate is false when no timeout is set.  With a
    timeout [t]: when the inner loop ends with a result [r] of the handler
    (whatever it is, [SUCCESS] too) and at least [t] ticks have passed, the
    attempt is recorded as [TIMEOUT] with the synthesized message, and
    treated as such: the entry appended to [_state_history] is its newest
    entry, has result [TIMEOUT] and the message as its error, and stays
    the newest entry through the retry and through the end of
    [_execute_state].  With no timeout the attempt is recorded, in the same
    way, with what the last handler call returned, or as [FAILURE] with its
    message if it raised: nothing is forced to [TIMEOUT]. *)
Theorem timeout_overrides_result cls (state : State) md h self w fuel :
  _state_metadata self !! state = Some md ->
  methods cls !! handler_name state = Some h ->
  let rc := default 0 (_retry_counts self !! state) in
  let ctx := mkStateExecutionContext state rc (clock w) in
  (forall c now, has_timed_out c now None = false) /\
  (forall t c now, has_timed_out c now (Some t) = true <-> t <= elapsed_time c now) /\
  (forall t r w1,
     timeout md = Some t ->
     handler_loop (S fuel) h ctx (timeout md) FAILURE w = Some (Returns r, w1) ->
     t <= elapsed_time ctx (clock w1) ->
     let entry :=
       mkStateHistoryEntry state TIMEOUT (clock w1 - clock w) (clock w1) rc
         (Some (timeout_message (Some t))) in
     let self1 := record_attempt entry self in
     _execute_state (S fuel) cls state self w
     = (if bool_decide (rc < max_retries md) then
          _execute_state fuel cls state (retry_again state rc self1) w1
        else Ok TIMEOUT (settle state md TIMEOUT self1) w1) /\
     _state_history self1
     = deque_append HISTORY_MAXLEN (_state_history self) entry /\
     last (_state_history self1) = Some entry /\
     h_result entry = TIMEOUT /\
     h_error_message entry = Some (timeout_message (Some t)) /\
     _state_history (retry_again state rc self1) = _state_history self1 /\
     _state_history (settle state md TIMEOUT self1) = _state_history self1) /\
  (forall r err w1,
     timeout md = None ->
     attempt (S fuel) h ctx md w = Some (r, err, w1) ->
     let entry :=
       mkStateHistoryEntry state r (clock w1 - clock w) (clock w1) rc err in
     let self1 := record_attempt entry self in
     ((exists now d, h ctx now = (Returns r, d) /\ err = None) \/
      (r = FAILURE /\ exists now d msg, h ctx now = (Raises msg, d) /\ err = Some msg)) /\
     _execute_state (S fuel) cls state self w
     = (if is_failure r && bool_decide (rc < max_retries md) then
          _execute_state fuel cls state (retry_again state rc self1) w1
        else Ok r (settle state md r self1) w1) /\
     _state_history self1
     = deque_append HISTORY_MAXLEN (_state_history self) entry /\
     last (_state_history self1) = Some entry /\
     _state_history (retry_again state rc self1) = _state_history self1 /\
     _state_history (settle state md r self1) = _state_history self1).
Proof.
  intros Hmd Hh rc ctx.
  split; [reflexivity|].
  split.
  { intros t c now. unfold has_timed_out. apply bool_decide_eq_true. }
  split.
  - intros t r w1 Ht Hloop Helapsed entry self1.
    assert (Hatt : attempt (S fuel) h ctx md w
                   = Some (TIMEOUT, Some (timeout_message (Some t)), w1)).
    { unfold attempt. rewrite Hloop. rewrite Ht.
      unfold has_timed_out. by rewrite bool_decide_eq_true_2. }
    split.
    { rewrite (execute_state_attempt _ _ _ _ _ _ _ _ _ _ Hmd Hh Hatt).
      reflexivity. }
    split; [reflexivity|]. split; [apply deque_append_last|].
    split; [reflexivity|]. split; [reflexivity|]. split; [reflexivity|].
    apply settle_history.
  - intros r err w1 Ht Hatt entry self1. split.
    + unfold attempt in Hatt. rewrite Ht in Hatt.
      destruct (handler_loop (S fuel) h ctx None FAILURE w) as [[o w2]|] eqn:El;
        [|done].
      apply handler_loop_unbounded in El as (now & d & Hnow).
      destruct o as [r'|msg].
      * simpl in Hatt. injection Hatt as <- <- <-. left. by exists now, d.
      * injection Hatt as <- <- <-. right. split; [done|]. by exists now, d, msg.
    + split.
      { by rewrite (execute_state_attempt _ _ _ _ _ _ _ _ _ _ Hmd Hh Hatt). }
      split; [reflexivity|]. split; [apply deque_append_last|].
      split; [reflexivity|]. apply settle_history.
Qed.

Lemma timeout_overrides_result_witness :
  let cls := Steps.failing_over 0 (Some 50) Steps.ERROR (Returns SUCCESS) 60 in
  let self := Steps.initialized cls in
  let w1 := mkWorld 1060 [(Steps.A, 0)] in
  let entry :=
    mkStateHistoryEntry Steps.A TIMEOUT 60 1060 0 (Some "Timeout after 50s") in
  exists self',
    _execute_state 6 cls Steps.A self Steps.w0 = Ok TIMEOUT self' w1 /\
    _state_history self' = [entry] /\
    last (_state_history self') = Some entry /\
    h_result <$> _state_history self' = [TIMEOUT].
Proof.
  intros cls self w1 entry.
  destruct (timeout_overrides_result cls Steps.A
              (Steps.meta Steps.A 0 (Some 50) (Some Steps.ERROR))
              (Steps.always (Returns SUCCESS) 60) self Steps.w0 5%nat)
    as (_ & _ & Hforced & _).
  - vm_compute. reflexivity.
  - vm_compute. reflexivity.
  - destruct (Hforced 50 SUCCESS w1)
      as (Hrun & Hhist & Hlast & _ & _ & _ & Hsettle).
    + reflexivity.
    + vm_compute. reflexivity.
    + vm_compute. discriminate.
    + eexists. split; [exact Hrun|].
      rewrite Hsettle. split; [|split].
      * rewrite Hhist. reflexivity.
      * exact Hlast.
      * rewrite Hhist. reflexivity.
Defined.

(** ** Retries *)

Lemma not_timed_out_at_start h md state r w :
  in_time h md ->
  has_timed_out (mkStateExecutionContext state r (clock w)) (clock w) (timeout md)
  = false.
Proof.
  unfold in_time, has_timed_out, elapsed_time. destruct (timeout md) as [t|]; [|done].
  intros [Ht _]. simpl. apply bool_decide_eq_false_2. lia.
Qed.

Lemma not_timed_out_after_call h md state r w :
  in_time h md ->
  let ctx := mkStateExecutionContext state r (clock w) in
  has_timed_out ctx (clock (invoke h ctx w).2) (timeout md) = false.
Proof.
  unfold in_time, has_timed_out, elapsed_time, invoke.
  destruct (timeout md) as [t|]; [|done].
  intros [_ Hd]. simpl.
  specialize (Hd (mkStateExecutionContext state r (clock w)) (clock w)).
  destruct (h _ _) as [o d]. simpl in *. apply bool_decide_eq_false_2. lia.
Qed.

(** An attempt whose first handler call does not return [RETRY], in time:
    one call, and the result is the handler's. *)
Lemma attempt_single_call fuel h md state r w :
  in_time h md ->
  let ctx := mkStateExecutionContext state r (clock w) in
  (invoke h ctx w).1 <> Returns RETRY ->
  attempt (S fuel) h ctx md w
  = Some (match (invoke h ctx w).1 with Returns res => res | Raises _ => FAILURE end,
          error_of (invoke h ctx w).1, (invoke h ctx w).2).
Proof.
  intros Hin ctx Hnr. unfold attempt. cbn [handler_loop].
  pose proof (not_timed_out_at_start h md state r w Hin) as Hstart.
  pose proof (not_timed_out_after_call h md state r w Hin) as Hafter.
  cbv zeta in Hafter. fold ctx in Hstart, Hafter. rewrite Hstart.
  destruct (invoke h ctx w) as [o w1] eqn:Einv. simpl in *.
  destruct o as [res|msg]; [|done].
  rewrite bool_decide_eq_false_2 by congruence. simpl. by rewrite Hafter.
Qed.

Lemma invoke_world h ctx w :
  invocations (invoke h ctx w).2
  = invocations w ++ [(current_state ctx, retry_count ctx)].
Proof. unfold invoke. by destruct (h ctx (clock w)). Qed.

Lemma invoke_outcome h ctx w : (invoke h ctx w).1 = (h ctx (clock w)).1.
Proof. unfold invoke. by destruct (h ctx (clock w)). Qed.

(** One attempt that fails with retries left: recorded, counted, retried. *)
Lemma execute_state_retry fuel cls (state : State) md h self w :
  _state_metadata self !! state = Some md ->
  methods cls !! handler_name state = Some h ->
  in_time h md ->
  let r := default 0 (_retry_counts self !! state) in
  let ctx := mkStateExecutionContext state r (clock w) in
  fails (h ctx (clock w)).1 ->
  r < max_retries md ->
  _execute_state (S fuel) cls state self w
  = _execute_state fuel cls state
      (retry_again state r (record_attempt (attempt_entry h state r FAILURE w) self))
      (invoke h ctx w).2.
Proof.
  intros Hmd Hh Hin r ctx Hfails Hr.
  rewrite <- invoke_outcome in Hfails.
  assert (Hnr : (invoke h ctx w).1 <> Returns RETRY).
  { destruct Hfails as [->|[msg ->]]; done. }
  pose proof (attempt_single_call (fuel) h md state r w Hin Hnr) as Hatt.
  assert (Hres : match (invoke h ctx w).1 with
                 | Returns res => res | Raises _ => FAILURE end = FAILURE).
  { destruct Hfails as [->|[msg ->]]; done. }
  fold ctx in Hatt. rewrite Hres in Hatt.
  rewrite (execute_state_attempt _ _ _ _ _ _ _ _ _ _ Hmd Hh Hatt).
  cbv zeta. fold r. rewrite (bool_decide_eq_true_2 _ Hr). reflexivity.
Qed.

(** One attempt that does not fail, or fails with no retry left: recorded
    and settled. *)
Lemma execute_state_settle fuel cls (state : State) md h self w result :
  _state_metadata self !! state = Some md ->
  methods cls !! handler_name state = Some h ->
  in_time h md ->
  let r := default 0 (_retry_counts self !! state) in
  let ctx := mkStateExecutionContext state r (clock w) in
  result <> RETRY ->
  match (h ctx (clock w)).1 with Returns res => res | Raises _ => FAILURE end
  = result ->
  is_failure result = false \/ max_retries md <= r ->
  _execute_state (S fuel) cls state self w
  = Ok result
      (settle state md result
         (record_attempt (attempt_entry h state r result w) self))
      (invoke h ctx w).2.
Proof.
  intros Hmd Hh Hin r ctx Hnr Hres Hcase.
  rewrite <- invoke_outcome in Hres.
  assert (Hnr' : (invoke h ctx w).1 <> Returns RETRY).
  { intros E. rewrite E in Hres. congruence. }
  pose proof (attempt_single_call fuel h md state r w Hin Hnr') as Hatt.
  fold ctx in Hatt. rewrite Hres in Hatt.
  rewrite (execute_state_attempt _ _ _ _ _ _ _ _ _ _ Hmd Hh Hatt).
  cbv zeta. fold r.
  destruct Hcase as [Hok|Hex].
  - rewrite Hok. reflexivity.
  - rewrite (bool_decide_eq_false_2 (r < max_retries md)) by lia.
    rewrite andb_false_r. reflexivity.
Qed.

Lemma seqZ_succ_cons (r : Z) (k : nat) :
  seqZ r (Z.of_nat (S k)) = r :: seqZ (r + 1) (Z.of_nat k).
Proof.
  rewrite seqZ_cons by lia. f_equal. f_equal; lia.
Qed.

(** [k] failing attempts with retries left: the engine goes through
    [failed_attempts] and goes on from there. *)
Lemma execute_state_failed_attempts cls (state : State) md h (k : nat) :
  forall fuel self w,
    _state_metadata self !! state = Some md ->
    methods cls !! handler_name state = Some h ->
    in_time h md ->
    let r := default 0 (_retry_counts self !! state) in
    r + Z.of_nat k <= max_retries md ->
    (forall ctx now, current_state ctx = state ->
       r <= retry_count ctx < r + Z.of_nat k -> fails (h ctx now).1) ->
    _execute_state (k + fuel) cls state self w
    = _execute_state fuel cls state
        (failed_attempts h state r k self w).1
        (failed_attempts h state r k self w).2.
Proof.
  induction k as [|k IH]; intros fuel self w Hmd Hh Hin r Hle Hfails; [done|].
  change (S k + fuel)%nat with (S (k + fuel)).
  rewrite (execute_state_retry _ _ _ _ _ _ _ Hmd Hh Hin); fold r.
  - cbn [failed_attempts].
    set (self1 := retry_again state r
                    (record_attempt (attempt_entry h state r FAILURE w) self)).
    assert (Hr1 : default 0 (_retry_counts self1 !! state) = r + 1).
    { unfold self1, retry_again. simpl. by rewrite lookup_insert_eq. }
    rewrite <- Hr1. apply IH; try done.
    + rewrite Hr1. lia.
    + intros ctx now Hs Hrange. rewrite Hr1 in Hrange. apply Hfails; [done|lia].
  - apply Hfails; simpl; [done|lia].
  - lia.
Qed.

Lemma failed_attempts_spec h (state : State) (k : nat) :
  forall r self w,
    let self' := (failed_attempts h state r k self w).1 in
    let w' := (failed_attempts h state r k self w).2 in
    self' = set_retry_counts (_retry_counts self')
              (set_state_history (_state_history self') self) /\
    _retry_counts self'
    = match k with
      | O => _retry_counts self
      | S _ => <[state := r + Z.of_nat k]> (_retry_counts self)
      end /\
    invocations w'
    = invocations w ++ ((fun i => (state, i)) <$> seqZ r (Z.of_nat k)) /\
    exists entries,
      _state_history self'
      = fold_left (deque_append HISTORY_MAXLEN) entries (_state_history self) /\
      h_state <$> entries = replicate k state /\
      h_result <$> entries = replicate k FAILURE /\
      h_retry_count <$> entries = seqZ r (Z.of_nat k).
Proof.
  induction k as [|k IH]; intros r self w.
  - cbn [failed_attempts]. simpl. repeat split.
    + by destruct self.
    + by rewrite app_nil_r.
    + by exists [].
  - cbn [failed_attempts].
    set (e := attempt_entry h state r FAILURE w).
    set (self1 := retry_again state r (record_attempt e self)).
    set (w1 := (invoke h (mkStateExecutionContext state r (clock w)) w).2).
    destruct (IH (r + 1) self1 w1) as (Hframe & Hrc & Hinv & entries & Hh & Hs & Hr & Hi).
    cbv zeta. split; [|split; [|split]].
    + etransitivity; [exact Hframe|]. reflexivity.
    + rewrite Hrc. destruct k as [|k'].
      * unfold self1, retry_again. simpl. reflexivity.
      * unfold self1, retry_again. simpl _retry_counts.
        rewrite insert_insert_eq. f_equal. lia.
    + rewrite Hinv. unfold w1. rewrite invoke_world. simpl.
      rewrite seqZ_succ_cons. rewrite fmap_cons. by rewrite <- app_assoc.
    + exists (e :: entries). split; [|split; [|split]].
      * rewrite Hh. reflexivity.
      * rewrite fmap_cons, Hs. reflexivity.
      * rewrite fmap_cons, Hr. reflexivity.
      * rewrite fmap_cons, Hi, seqZ_succ_cons. reflexivity.
Qed.

Lemma failed_attempts_retry_count h (state : State) (k : nat) r self w :
  default 0 (_retry_counts self !! state) = r ->
  default 0 (_retry_counts (failed_attempts h state r k self w).1 !! state)
  = r + Z.of_nat k.
Proof.
  intros Hr. destruct (failed_attempts_spec h state k r self w) as (_ & Hrc & _).
  cbv zeta in Hrc. rewrite Hrc. destruct k as [|k].
  - rewrite Hr. simpl. lia.
  - by rewrite lookup_insert_eq.
Qed.

Lemma failed_attempts_metadata h (state : State) (k : nat) r self w :
  _state_metadata (failed_attempts h state r k self w).1 = _state_metadata self /\
  _current_state (failed_attempts h state r k self w).1 = _current_state self.
Proof.
  destruct (failed_attempts_spec h state k r self w) as (Hframe & _).
  cbv zeta in Hframe. rewrite Hframe. done.
Qed.

(** *** Attempts of one handler call, in time or not *)

Lemma attempt_outcome_world (h : Handler) md (state : State) r w :
  (attempt_outcome h md state r w).2
  = (invoke h (mkStateExecutionContext state r (clock w)) w).2.
Proof.
  unfold attempt_outcome. cbv zeta.
  destruct (invoke h _ w).1 as [res|msg]; [|done].
  by destruct (has_timed_out _ _ _).
Qed.

Lemma attempt_outcome_fails (h : Handler) md (state : State) r w :
  fails (h (mkStateExecutionContext state r (clock w)) (clock w)).1 ->
  is_failure (attempt_outcome h md state r w).1.1 = true /\
  ((attempt_outcome h md state r w).1.1 = FAILURE \/
   (attempt_outcome h md state r w).1.1 = TIMEOUT) /\
  (in_time h md -> (attempt_outcome h md state r w).1.1 = FAILURE).
Proof.
  intros Hf. rewrite <- invoke_outcome in Hf. unfold attempt_outcome. cbv zeta.
  destruct Hf as [Hf|[msg Hf]]; rewrite Hf; [|by repeat split; auto].
  destruct (has_timed_out _ _ _) eqn:Et; [|by repeat split; auto].
  split; [done|]. split; [by right|]. intros Hin.
  pose proof (not_timed_out_after_call h md state r w Hin) as Hnot.
  cbv zeta in Hnot. congruence.
Qed.

Lemma attempt_outcome_in_time (h : Handler) md (state : State) r w res :
  in_time h md ->
  (h (mkStateExecutionContext state r (clock w)) (clock w)).1 = Returns res ->
  (attempt_outcome h md state r w).1 = (res, None).
Proof.
  intros Hin Hres. rewrite <- invoke_outcome in Hres. unfold attempt_outcome.
  cbv zeta. rewrite Hres.
  pose proof (not_timed_out_after_call h md state r w Hin) as Hnot.
  cbv zeta in Hnot. by rewrite Hnot.
Qed.

(** An attempt whose first handler call does not return [RETRY]. *)
Lemma attempt_one_call fuel (h : Handler) md (state : State) r w :
  valid_timeout md ->
  (invoke h (mkStateExecutionContext state r (clock w)) w).1 <> Returns RETRY ->
  attempt (S fuel) h (mkStateExecutionContext state r (clock w)) md w
  = Some (attempt_outcome h md state r w).
Proof.
  intros Hv Hnr. unfold attempt, attempt_outcome. cbn [handler_loop]. cbv zeta.
  assert (Hstart : has_timed_out (mkStateExecutionContext state r (clock w))
                     (clock w) (timeout md) = false).
  { unfold has_timed_out, elapsed_time. destruct (timeout md) as [t|] eqn:Ht; [|done].
    specialize (Hv t Ht). simpl. apply bool_decide_eq_false_2. lia. }
  rewrite Hstart.
  destruct (invoke h _ w) as [o w1] eqn:Einv. simpl in *.
  destruct o as [res|msg]; [|done].
  rewrite bool_decide_eq_false_2 by congruence. simpl.
  destruct (has_timed_out _ (clock w1) _); reflexivity.
Qed.

Lemma execute_state_retry_any fuel cls (state : State) md (h : Handler) self w :
  _state_metadata self !! state = Some md ->
  methods cls !! handler_name state = Some h ->
  valid_timeout md ->
  let r := default 0 (_retry_counts self !! state) in
  fails (h (mkStateExecutionContext state r (clock w)) (clock w)).1 ->
  r < max_retries md ->
  _execute_state (S fuel) cls state self w
  = _execute_state fuel cls state
      (retry_again state r (record_attempt (attempt_record h md state r w) self))
      (attempt_outcome h md state r w).2.
Proof.
  intros Hmd Hh Hv r Hfails Hr.
  assert (Hnr : (invoke h (mkStateExecutionContext state r (clock w)) w).1
                <> Returns RETRY).
  { rewrite invoke_outcome. destruct Hfails as [->|[msg ->]]; done. }
  pose proof (attempt_one_call fuel h md state r w Hv Hnr) as Hatt.
  destruct (attempt_outcome_fails h md state r w Hfails) as [Hfail _].
  destruct (attempt_outcome h md state r w) as [[res err] w1] eqn:Eo.
  rewrite (execute_state_attempt _ _ _ _ _ _ _ _ _ _ Hmd Hh Hatt).
  cbv zeta. fold r. simpl in Hfail. rewrite Hfail.
  rewrite (bool_decide_eq_true_2 _ Hr). simpl.
  unfold attempt_record. rewrite Eo. reflexivity.
Qed.

Lemma execute_state_settle_any fuel cls (state : State) md (h : Handler) self w :
  _state_metadata self !! state = Some md ->
  methods cls !! handler_name state = Some h ->
  valid_timeout md ->
  let r := default 0 (_retry_counts self !! state) in
  (invoke h (mkStateExecutionContext state r (clock w)) w).1 <> Returns RETRY ->
  is_failure (attempt_outcome h md state r w).1.1 = false \/ max_retries md <= r ->
  _execute_state (S fuel) cls state self w
  = Ok (attempt_outcome h md state r w).1.1
      (settle state md (attempt_outcome h md state r w).1.1
         (record_attempt (attempt_record h md state r w) self))
      (attempt_outcome h md state r w).2.
Proof.
  intros Hmd Hh Hv r Hnr Hcase.
  pose proof (attempt_one_call fuel h md state r w Hv Hnr) as Hatt.
  unfold attempt_record.
  destruct (attempt_outcome h md state r w) as [[res err] w1] eqn:Eo.
  rewrite (execute_state_attempt _ _ _ _ _ _ _ _ _ _ Hmd Hh Hatt).
  cbv zeta. fold r. simpl in *.
  destruct Hcase as [Hok|Hex].
  - rewrite Hok. reflexivity.
  - rewrite (bool_decide_eq_false_2 (r < max_retries md)) by lia.
    rewrite andb_false_r. reflexivity.
Qed.

Lemma execute_state_retried_attempts cls (state : State) md (h : Handler) (k : nat) :
  forall fuel self w,
    _state_metadata self !! state = Some md ->
    methods cls !! handler_name state = Some h ->
    valid_timeout md ->
    let r := default 0 (_retry_counts self !! state) in
    r + Z.of_nat k <= max_retries md ->
    (forall ctx now, current_state ctx = state ->
       r <= retry_count ctx < r + Z.of_nat k -> fails (h ctx now).1) ->
    _execute_state (k + fuel) cls state self w
    = _execute_state fuel cls state
        (retried_attempts h md state r k self w).1
        (retried_attempts h md state r k self w).2.
Proof.
  induction k as [|k IH]; intros fuel self w Hmd Hh Hv r Hle Hfails; [done|].
  change (S k + fuel)%nat with (S (k + fuel)).
  rewrite (execute_state_retry_any _ _ _ _ _ _ _ Hmd Hh Hv); fold r.
  - cbn [retried_attempts].
    set (self1 := retry_again state r
                    (record_attempt (attempt_record h md state r w) self)).
    assert (Hr1 : default 0 (_retry_counts self1 !! state) = r + 1).
    { unfold self1, retry_again. simpl. by rewrite lookup_insert_eq. }
    rewrite <- Hr1. apply IH; try done.
    + rewrite Hr1. lia.
    + intros ctx now Hs Hrange. rewrite Hr1 in Hrange. apply Hfails; [done|lia].
  - apply Hfails; simpl; [done|lia].
  - lia.
Qed.

Lemma retried_attempts_spec (h : Handler) md (state : State) (k : nat) :
  forall r self w,
    (forall ctx now, current_state ctx = state ->
       r <= retry_count ctx < r + Z.of_nat k -> fails (h ctx now).1) ->
    let self' := (retried_attempts h md state r k self w).1 in
    let w' := (retried_attempts h md state r k self w).2 in
    self' = set_retry_counts (_retry_counts self')
              (set_state_history (_state_history self') self) /\
    _retry_counts self'
    = match k with
      | O => _retry_counts self
      | S _ => <[state := r + Z.of_nat k]> (_retry_counts self)
      end /\
    invocations w'
    = invocations w ++ ((fun i => (state, i)) <$> seqZ r (Z.of_nat k)) /\
    exists entries,
      _state_history self'
      = fold_left (deque_append HISTORY_MAXLEN) entries (_state_history self) /\
      h_state <$> entries = replicate k state /\
      Forall (fun e => h_result e = FAILURE \/ h_result e = TIMEOUT) entries /\
      (in_time h md -> h_result <$> entries = replicate k FAILURE) /\
      h_retry_count <$> entries = seqZ r (Z.of_nat k).
Proof.
  induction k as [|k IH]; intros r self w Hfails.
  - cbn [retried_attempts]. simpl. repeat split.
    + by destruct self.
    + by rewrite app_nil_r.
    + exists []. by repeat split.
  - cbn [retried_attempts].
    set (e := attempt_record h md state r w).
    set (self1 := retry_again state r (record_attempt e self)).
    set (w1 := (attempt_outcome h md state r w).2).
    assert (Hf0 : fails (h (mkStateExecutionContext state r (clock w)) (clock w)).1).
    { apply Hfails; simpl; [done|lia]. }
    destruct (attempt_outcome_fails h md state r w Hf0) as (Hfail & Hkind & Hfast).
    destruct (IH (r + 1) self1 w1)
      as (Hframe & Hrc & Hinv & entries & Hh & Hs & Hres & Hfa & Hi).
    { intros ctx now Hc Hrange. apply Hfails; [done|lia]. }
    cbv zeta. split; [|split; [|split]].
    + etransitivity; [exact Hframe|]. reflexivity.
    + rewrite Hrc. destruct k as [|k'].
      * unfold self1, retry_again. simpl. reflexivity.
      * unfold self1, retry_again. simpl _retry_counts.
        rewrite insert_insert_eq. f_equal. lia.
    + rewrite Hinv. unfold w1. rewrite attempt_outcome_world, invoke_world. simpl.
      rewrite seqZ_succ_cons. rewrite fmap_cons. by rewrite <- app_assoc.
    + exists (e :: entries). split; [|split; [|split; [|split]]].
      * rewrite Hh. reflexivity.
      * rewrite fmap_cons, Hs. reflexivity.
      * constructor; [|exact Hres]. unfold e, attempt_record. simpl. exact Hkind.
      * intros Hin. rewrite fmap_cons, (Hfa Hin). unfold e, attempt_record. simpl.
        by rewrite (Hfast Hin).
      * rewrite fmap_cons, Hi, seqZ_succ_cons. reflexivity.
Qed.




Lemma retried_attempts_frame (h : Handler) md (state : State) (k : nat) r self w :
  (forall ctx now, current_state ctx = state ->
     r <= retry_count ctx < r + Z.of_nat k -> fails (h ctx now).1) ->
  default 0 (_retry_counts self !! state) = r ->
  _state_metadata (retried_attempts h md state r k self w).1 = _state_metadata self /\
  _current_state (retried_attempts h md state r k self w).1 = _current_state self /\
  default 0 (_retry_counts (retried_attempts h md state r k self w).1 !! state)
  = r + Z.of_nat k.
Proof.
  intros Hfails Hr.
  destruct (retried_attempts_spec h md state k r self w Hfails) as (Hframe & Hrc & _).
  cbv zeta in Hframe, Hrc. split; [by rewrite Hframe|]. split; [by rewrite Hframe|].
  rewrite Hrc. destruct k as [|k].
  - rewrite Hr. simpl. lia.
  - by rewrite lookup_insert_eq.
Qed.




(** ** Exhausted retries and failover *)

(** An always-failing handler on a state with [max_retries = n], from a
    retry counter at 0: [n+1] attempts, and [FAILURE] is returned. *)
Lemma execute_state_exhausted cls (state : State) md h self w (n fuel : nat) :
  _state_metadata self !! state = Some md ->
  methods cls !! handler_name state = Some h ->
  in_time h md ->
  max_retries md = Z.of_nat n ->
  default 0 (_retry_counts self !! state) = 0 ->
  (forall ctx now, current_state ctx = state -> fails (h ctx now).1) ->
  _execute_state (n + S fuel) cls state self w
  = Ok FAILURE (exhausted h state md n self w).1 (exhausted h state md n self w).2.
Proof.
  intros Hmd Hh Hin Hmax Hr0 Hfail.
  pose proof (execute_state_failed_attempts cls state md h n (S fuel) self w
                Hmd Hh Hin) as Hrun.
  cbv zeta in Hrun. rewrite Hr0 in Hrun.
  rewrite Hrun; [|lia|intros ctx now Hs _; by apply Hfail]. clear Hrun.
  destruct (failed_attempts_metadata h state n 0 self w) as [Hmd' _].
  pose proof (failed_attempts_retry_count h state n 0 self w Hr0) as Hrn.
  rewrite Z.add_0_l in Hrn. unfold exhausted. cbv zeta.
  set (selfn := (failed_attempts h state 0 n self w).1) in *.
  set (wn := (failed_attempts h state 0 n self w).2) in *.
  assert (Hmdn : _state_metadata selfn !! state = Some md) by (by rewrite Hmd').
  rewrite (execute_state_settle fuel cls state md h selfn wn FAILURE Hmdn Hh Hin).
  - rewrite Hrn. reflexivity.
  - done.
  - specialize (Hfail (mkStateExecutionContext state
                         (default 0 (_retry_counts selfn !! state)) (clock wn))
                  (clock wn) eq_refl).
    destruct Hfail as [->|[msg ->]]; reflexivity.
  - right. rewrite Hrn. lia.
Qed.

Lemma settle_failover (state : State) md result self F :
  failover_state md = Some F -> is_failure result = true ->
  settle state md result self
  = set_retry_counts (<[state := 0]> (_retry_counts self))
      (set_current_state (Some F) self).
Proof.
  intros HF Hres. unfold settle. rewrite HF, Hres.
  rewrite bool_decide_eq_false_2; [done|].
  intros ->. discriminate Hres.
Qed.

Lemma exhausted_spec h (state : State) md (n : nat) self w F :
  failover_state md = Some F ->
  let self' := (exhausted h state md n self w).1 in
  let w' := (exhausted h state md n self w).2 in
  _current_state self' = Some F /\
  _retry_counts self' !! state = Some 0 /\
  invocations w'
  = invocations w ++ ((fun i => (state, i)) <$> seqZ 0 (Z.of_nat (S n))) /\
  exists entries,
    _state_history self'
    = fold_left (deque_append HISTORY_MAXLEN) entries (_state_history self) /\
    h_state <$> entries = replicate (S n) state /\
    h_result <$> entries = replicate (S n) FAILURE /\
    h_retry_count <$> entries = seqZ 0 (Z.of_nat (S n)).
Proof.
  intros HF self' w'. unfold self', w', exhausted. cbv zeta.
  destruct (failed_attempts_spec h state n 0 self w)
    as (_ & _ & Hinv & entries & Hhist & Hs & Hres & Hidx).
  cbv zeta in Hinv, Hhist.
  set (selfn := (failed_attempts h state 0 n self w).1) in *.
  set (wn := (failed_attempts h state 0 n self w).2) in *.
  set (e := attempt_entry h state (Z.of_nat n) FAILURE wn).
  cbn [fst snd].
  rewrite (settle_failover state md FAILURE (record_attempt e selfn) F HF eq_refl).
  split; [reflexivity|]. split; [simpl; by rewrite lookup_insert_eq|].
  split.
  - rewrite invoke_world, Hinv. simpl current_state. simpl retry_count.
    rewrite seqZ_S, fmap_app, <- app_assoc. simpl. reflexivity.
  - exists (entries ++ [e]). split; [|split; [|split]].
    + simpl. rewrite Hhist. by rewrite fold_left_app.
    + rewrite fmap_app, Hs, replicate_S_end. reflexivity.
    + rewrite fmap_app, Hres, replicate_S_end. reflexivity.
    + rewrite fmap_app, Hidx, seqZ_S. simpl. reflexivity.
Qed.

(** The same with no assumption on how long the handler takes: the [n]
    retried attempts and the last one, at retry index [n], each recorded
    as [FAILURE] or, when the call overran the timeout, as [TIMEOUT]; the
    result of the last one is what is returned. *)
Lemma execute_state_exhausted_any cls (state : State) md (h : Handler) self w
    (n fuel : nat) :
  _state_metadata self !! state = Some md ->
  methods cls !! handler_name state = Some h ->
  valid_timeout md ->
  max_retries md = Z.of_nat n ->
  default 0 (_retry_counts self !! state) = 0 ->
  (forall ctx now, current_state ctx = state -> fails (h ctx now).1) ->
  let selfn := (retried_attempts h md state 0 n self w).1 in
  let wn := (retried_attempts h md state 0 n self w).2 in
  let last := attempt_outcome h md state (Z.of_nat n) wn in
  _execute_state (n + S fuel) cls state self w
  = Ok last.1.1
      (settle state md last.1.1
         (record_attempt (attempt_record h md state (Z.of_nat n) wn) selfn))
      last.2 /\
  is_failure last.1.1 = true /\
  (last.1.1 = FAILURE \/ last.1.1 = TIMEOUT) /\
  (in_time h md -> last.1.1 = FAILURE) /\
  invocations last.2
  = invocations w ++ ((fun i => (state, i)) <$> seqZ 0 (Z.of_nat (S n))) /\
  _current_state selfn = _current_state self /\
  default 0 (_retry_counts selfn !! state) = Z.of_nat n.
Proof.
  intros Hmd Hh Hv Hmax Hr0 Hfail selfn wn last. subst selfn wn last.
  assert (Hfail' : forall ctx now, current_state ctx = state ->
            0 <= retry_count ctx < 0 + Z.of_nat n -> fails (h ctx now).1).
  { intros ctx now Hs _. by apply Hfail. }
  pose proof (execute_state_retried_attempts cls state md h n (S fuel) self w
                Hmd Hh Hv) as Hrun.
  cbv zeta in Hrun. rewrite Hr0 in Hrun.
  rewrite Hrun by (try lia; exact Hfail'). clear Hrun.
  destruct (retried_attempts_spec h md state n 0 self w Hfail')
    as (_ & _ & Hinv & _).
  destruct (retried_attempts_frame h md state n 0 self w Hfail' Hr0)
    as (Hmd' & Hcur' & Hrn).
  cbv zeta in Hinv. rewrite Z.add_0_l in Hrn.
  set (selfn := (retried_attempts h md state 0 n self w).1) in *.
  set (wn := (retried_attempts h md state 0 n self w).2) in *.
  assert (Hmdn : _state_metadata selfn !! state = Some md) by (by rewrite Hmd').
  assert (Hlastcall : fails (h (mkStateExecutionContext state (Z.of_nat n) (clock wn))
                               (clock wn)).1) by (by apply Hfail).
  destruct (attempt_outcome_fails h md state (Z.of_nat n) wn Hlastcall)
    as (Hisf & Hkind & Hfast).
  split.
  { rewrite (execute_state_settle_any fuel cls state md h selfn wn Hmdn Hh Hv);
      rewrite Hrn.
    - reflexivity.
    - rewrite invoke_outcome. destruct Hlastcall as [->|[msg ->]]; done.
    - right. lia. }
  split; [exact Hisf|]. split; [exact Hkind|]. split; [exact Hfast|].
  split.
  { rewrite attempt_outcome_world, invoke_world, Hinv.
    simpl current_state. simpl retry_count.
    rewrite seqZ_S, fmap_app, <- app_assoc. simpl. reflexivity. }
  split; [exact Hcur'|exact Hrn].
Qed.

(** After [_execute_state] the current state is what it was, or the
    failover state of the executed state. *)
Lemma execute_state_current cls (state : State) md :
  forall fuel self w result self' w',
    _state_metadata self !! state = Some md ->
    _execute_state fuel cls state self w = Ok result self' w' ->
    _current_state self' = _current_state self \/
    _current_state self' = failover_state md.
Proof.
  induction fuel as [|fuel IH]; intros self w result self' w' Hmd Hexec; [done|].
  cbn [_execute_state] in Hexec. rewrite Hmd in Hexec. cbv zeta in Hexec.
  destruct (_get_state_handler cls state) as [e|h]; [done|].
  destruct (attempt _ _ _ _ _) as [[[res err] w1]|]; [|done].
  destruct (is_failure res && _) eqn:Eretry.
  - apply IH in Hexec; [exact Hexec|exact Hmd].
  - injection Hexec as <- <- <-. unfold settle.
    destruct (is_failure res); destruct (failover_state md);
      destruct (bool_decide (res = SUCCESS)); simpl; auto.
Qed.

(** C1, as the code has it.  For a state with failover state [F]:
    an attempt made with the retry counter at [max_retries] that ends in a
    failure result sets the current state to [F] and resets the retry
    counter of the state to 0, and when the attempt ended in [FAILURE] it
    is [FAILURE] that is returned.  With a timeout that is none or
    positive, a handler that always fails (returns [FAILURE] or raises)
    and the counter at 0 there are exactly [n+1] handler invocations, at
    retry indices [0..n], a result is returned, which is [FAILURE] when
    every call of the handler returns within the timeout, the current
    state is [F] and the retry counter is back at 0; and when [F] is
    another state, the run loop goes on with [F] at once, whatever
    transitions the state has. *)
Theorem failover_after_exhausted_retries cls (state : State) md h F self w
    (n fuel : nat) :
  _state_metadata self !! state = Some md ->
  methods cls !! handler_name state = Some h ->
  max_retries md = Z.of_nat n ->
  failover_state md = Some F ->
  (forall result err w1,
     default 0 (_retry_counts self !! state) = max_retries md ->
     attempt (S fuel) h
       (mkStateExecutionContext state (default 0 (_retry_counts self !! state))
          (clock w)) md w = Some (result, err, w1) ->
     is_failure result = true ->
     exists reported self',
       _execute_state (S fuel) cls state self w = Ok reported self' w1 /\
       _current_state self' = Some F /\
       _retry_counts self' !! state = Some 0 /\
       (result = FAILURE -> reported = FAILURE)) /\
  (valid_timeout md ->
   default 0 (_retry_counts self !! state) = 0 ->
   (forall ctx now, current_state ctx = state -> fails (h ctx now).1) ->
   exists reported self' w',
     _execute_state (n + S fuel) cls state self w = Ok reported self' w' /\
     invocations w'
     = invocations w ++ ((fun i => (state, i)) <$> seqZ 0 (Z.of_nat (S n))) /\
     _current_state self' = Some F /\
     _retry_counts self' !! state = Some 0 /\
     (in_time h md -> reported = FAILURE) /\
     forall k steps self0,
       _check_watchdog self0 w = Ok tt self w ->
       _current_state self = Some state ->
       F <> state ->
       run_loop (n + S fuel) cls (S k) steps self0 w
       = run_loop (n + S fuel) cls k (S steps) self' w').
Proof.
  intros Hmd Hh Hmax HF. split.
  - intros result err w1 Hr Hatt Hres.
    rewrite (execute_state_attempt _ _ _ _ _ _ _ _ _ _ Hmd Hh Hatt). cbv zeta.
    rewrite (bool_decide_eq_false_2 (_ < _)) by lia. rewrite andb_false_r.
    rewrite (settle_failover _ _ _ _ F HF Hres).
    eexists _, _. split; [reflexivity|]. split; [reflexivity|].
    split; [simpl; by rewrite lookup_insert_eq|done].
  - intros Hv Hr0 Hfail.
    destruct (execute_state_exhausted_any cls state md h self w n fuel
                Hmd Hh Hv Hmax Hr0 Hfail)
      as (Hexec & Hisf & _ & Hfast & Hinv & _).
    cbv zeta in Hexec, Hisf, Hfast, Hinv.
    rewrite (settle_failover _ _ _ _ F HF Hisf) in Hexec.
    eexists _, _, _. split; [exact Hexec|]. split; [exact Hinv|].
    split; [reflexivity|]. split; [simpl; by rewrite lookup_insert_eq|].
    split; [exact Hfast|].
    intros k steps self0 Hwd Hstate Hne.
    rewrite (run_loop_iteration _ _ _ _ _ _ _ _ _ _ _ Hwd Hstate Hexec).
    cbn [_current_state set_retry_counts set_current_state].
    rewrite bool_decide_eq_false_2 by congruence. reflexivity.
Qed.

Lemma failover_after_exhausted_retries_witness :
  let cls := Steps.failing_over 2 None Steps.ERROR (Returns FAILURE) 1 in
  let self := Steps.initialized cls in
  exists self' w',
    _execute_state (2 + 1) cls Steps.A self Steps.w0 = Ok FAILURE self' w' /\
    invocations w' = [(Steps.A, 0); (Steps.A, 1); (Steps.A, 2)] /\
    _current_state self' = Some Steps.ERROR /\
    _retry_counts self' !! Steps.A = Some 0 /\
    run_loop (2 + 1) cls (S 99) 0 self Steps.w0
    = run_loop (2 + 1) cls 99 1 self' w'.
Proof.
  intros cls self.
  destruct (failover_after_exhausted_retries cls Steps.A
              (Steps.meta Steps.A 2 None (Some Steps.ERROR))
              (Steps.always (Returns FAILURE) 1) Steps.ERROR self Steps.w0 2 0)
    as [_ Hall].
  - vm_compute. reflexivity.
  - vm_compute. reflexivity.
  - reflexivity.
  - reflexivity.
  - destruct Hall as (reported & self' & w' & Hexec & Hinv & Hcur & Hrc & Hfast & Hrun).
    + intros t Ht. discriminate Ht.
    + vm_compute. reflexivity.
    + intros ctx now _. left. reflexivity.
    + rewrite (Hfast I) in Hexec.
      exists self', w'. split; [exact Hexec|]. split; [exact Hinv|].
      split; [exact Hcur|]. split; [exact Hrc|].
      apply Hrun.
      * vm_compute. reflexivity.
      * vm_compute. reflexivity.
      * discriminate.
Defined.

(** C1 as it is written fails when the failover state is the state
    itself.  [A] has [max_retries = 0], failover state [A], a handler that
    raises, and a transition [A -> B]: [run] invokes the handler of [A]
    once, then follows the transition of [A], and [B] runs; the current
    state is [B] and not the failover state. *)
Lemma failover_to_self_follows_transition :
  let cls := Steps.failing_over 0 None Steps.A (Raises "boom") 1 in
  (define_state_metadata cls !! Steps.A
   = Some (Steps.meta Steps.A 0 None (Some Steps.A))) /\
  outcome_is (run 5 cls (new_StateMachine Steps.w0) Steps.w0)
    (fun _ self' w' =>
       invocations w' = [(Steps.A, 0); (Steps.B, 0)] /\
       (fun e => (h_state e, h_result e)) <$> _state_history self'
       = [(Steps.A, FAILURE); (Steps.B, SUCCESS)] /\
       _current_state self' = Some Steps.B /\
       Some Steps.B <> failover_state (Steps.meta Steps.A 0 None (Some Steps.A))).
Proof.
  intros cls. split; [vm_compute; reflexivity|].
  vm_compute. repeat split. discriminate.
Qed.

(** A handler that always returns [FAILURE], but after the timeout of the
    state: the two attempts are recorded as [TIMEOUT], the failover jump is
    made and it is [TIMEOUT] that [_execute_state] returns. *)
Lemma slow_failing_handler_reports_timeout :
  let cls := Steps.failing_over 1 (Some 50) Steps.ERROR (Returns FAILURE) 60 in
  let self := Steps.initialized cls in
  outcome_is (_execute_state 6 cls Steps.A self Steps.w0)
    (fun result self' w' =>
       result = TIMEOUT /\
       invocations w' = [(Steps.A, 0); (Steps.A, 1)] /\
       _current_state self' = Some Steps.ERROR /\
       _retry_counts self' !! Steps.A = Some 0 /\
       h_result <$> _state_history self' = [TIMEOUT; TIMEOUT]).
Proof.
  intros cls self. vm_compute. repeat split.
Qed.

(** Besides: when the last attempt ends in [TIMEOUT], the failover jump is
    made and it is [TIMEOUT] that [_execute_state] returns, where its
    docstring says [FAILURE]. *)
Lemma timeout_failover_returns_timeout :
  let cls := Steps.failing_over 0 (Some 50) Steps.ERROR (Returns RETRY) 30 in
  let self := Steps.initialized cls in
  outcome_is (_execute_state 6 cls Steps.A self Steps.w0)
    (fun result self' w' =>
       result = TIMEOUT /\
       _current_state self' = Some Steps.ERROR /\
       _retry_counts self' !! Steps.A = Some 0 /\
       h_result <$> _state_history self' = [TIMEOUT]).
Proof.
  intros cls self. vm_compute. repeat split.
Qed.

(** C9. A state whose failover state is the state itself: whatever
    [_execute_state] does, the current state is the same before and after,
    so the run loop takes the outcome for no failover jump and selects the
    next state from the transitions of the state in that same iteration.
    This is so when the retries are exhausted: an always-failing handler
    makes its [n+1] attempts, the failover branch runs (the retry counter is
    back at 0), and transition selection follows. *)
Theorem failover_to_self_is_not_a_jump cls (state : State) md self w fuel :
  _state_metadata self !! state = Some md ->
  failover_state md = Some state ->
  _current_state self = Some state ->
  (forall result self' w' k steps self0,
     _check_watchdog self0 w = Ok tt self w ->
     _execute_state fuel cls state self w = Ok result self' w' ->
     _current_state self' = Some state /\
     run_loop fuel cls (S k) steps self0 w
     = match _get_next_state self' state result (clock w') with
       | None => Ok steps self' w'
       | Some next_state =>
           run_loop fuel cls k (S steps)
             (set_current_state (Some next_state) self') w'
       end) /\
  (forall h (n fuel' : nat),
     methods cls !! handler_name state = Some h ->
     in_time h md ->
     max_retries md = Z.of_nat n ->
     default 0 (_retry_counts self !! state) = 0 ->
     (forall ctx now, current_state ctx = state -> fails (h ctx now).1) ->
     fuel = (n + S fuel')%nat ->
     let self' := (exhausted h state md n self w).1 in
     let w' := (exhausted h state md n self w).2 in
     _execute_state fuel cls state self w = Ok FAILURE self' w' /\
     invocations w'
     = invocations w ++ ((fun i => (state, i)) <$> seqZ 0 (Z.of_nat (S n))) /\
     _retry_counts self' !! state = Some 0 /\
     _current_state self' = Some state /\
     forall k steps self0,
       _check_watchdog self0 w = Ok tt self w ->
       run_loop fuel cls (S k) steps self0 w
       = match _get_next_state self' state FAILURE (clock w') with
         | None => Ok steps self' w'
         | Some next_state =>
             run_loop fuel cls k (S steps)
               (set_current_state (Some next_state) self') w'
         end).
Proof.
  intros Hmd HF Hcur.
  assert (Hgen : forall result self' w' k steps self0,
     _check_watchdog self0 w = Ok tt self w ->
     _execute_state fuel cls state self w = Ok result self' w' ->
     _current_state self' = Some state /\
     run_loop fuel cls (S k) steps self0 w
     = match _get_next_state self' state result (clock w') with
       | None => Ok steps self' w'
       | Some next_state =>
           run_loop fuel cls k (S steps)
             (set_current_state (Some next_state) self') w'
       end).
  { intros result self' w' k steps self0 Hwd Hexec.
    assert (Hsame : _current_state self' = Some state).
    { destruct (execute_state_current cls state md fuel self w result self' w'
                  Hmd Hexec) as [H|H]; congruence. }
    split; [exact Hsame|].
    rewrite (run_loop_iteration _ _ _ _ _ _ _ _ _ _ _ Hwd Hcur Hexec).
    by rewrite (bool_decide_eq_true_2 _ Hsame). }
  split; [exact Hgen|].
  intros h n fuel' Hh Hin Hmax Hr0 Hfail -> self' w'.
  pose proof (execute_state_exhausted cls state md h self w n fuel'
                Hmd Hh Hin Hmax Hr0 Hfail) as Hexec.
  destruct (exhausted_spec h state md n self w state HF) as (Hcur' & Hrc & Hinv & _).
  cbv zeta in Hcur', Hrc, Hinv.
  split; [exact Hexec|]. split; [exact Hinv|].
  split; [exact Hrc|]. split; [exact Hcur'|].
  intros k steps self0 Hwd.
  destruct (Hgen _ _ _ k steps self0 Hwd Hexec) as [_ Hrun]. exact Hrun.
Qed.

Lemma failover_to_self_is_not_a_jump_witness :
  let cls := Steps.self_failover in
  let self := Steps.initialized cls in
  let md := Steps.meta Steps.A 1 None (Some Steps.A) in
  let h := Steps.always (Returns FAILURE) 1 in
  let self' := (exhausted h Steps.A md 1 self Steps.w0).1 in
  let w' := (exhausted h Steps.A md 1 self Steps.w0).2 in
  _execute_state (1 + 3) cls Steps.A self Steps.w0 = Ok FAILURE self' w' /\
  invocations w' = [(Steps.A, 0); (Steps.A, 1)] /\
  _retry_counts self' !! Steps.A = Some 0 /\
  _current_state self' = Some Steps.A /\
  run_loop (1 + 3) cls (S 99) 0 self Steps.w0
  = run_loop (1 + 3) cls 99 1 (set_current_state (Some Steps.B) self') w'.
Proof.
  intros cls self md h self' w'.
  destruct (failover_to_self_is_not_a_jump cls Steps.A md self Steps.w0 (1 + 3))
    as [_ Hex].
  - vm_compute. reflexivity.
  - reflexivity.
  - vm_compute. reflexivity.
  - destruct (Hex h 1%nat 2%nat) as (Hexec & Hinv & Hrc & Hcur & Hrun).
    + vm_compute. reflexivity.
    + exact I.
    + reflexivity.
    + vm_compute. reflexivity.
    + intros ctx now _. left. reflexivity.
    + reflexivity.
    + split; [exact Hexec|]. split; [exact Hinv|].
      split; [exact Hrc|]. split; [exact Hcur|].
      rewrite (Hrun 99%nat 0%nat self) by (vm_compute; reflexivity).
      assert (Hnext : _get_next_state self' Steps.A FAILURE (clock w')
                      = Some Steps.B) by (vm_compute; reflexivity).
      fold self' w'. rewrite Hnext. reflexivity.
Defined.

(** ** The scenarios of the test-suite, run on the model *)

(** Linear chain: [A], [B], [C] run in order, three [SUCCESS] entries. *)
Example scenario_linear_chain :
  outcome_is (run 5 Steps.chain (new_StateMachine Steps.w0) Steps.w0)
    (fun e self' w' =>
       e = RunComplete /\
       invocations w' = [(Steps.A, 0); (Steps.B, 0); (Steps.C, 0)] /\
       (fun e => (h_state e, h_result e)) <$> _state_history self'
       = [(Steps.A, SUCCESS); (Steps.B, SUCCESS); (Steps.C, SUCCESS)] /\
       _current_state self' = Some Steps.C).
Proof. vm_compute. repeat split. Qed.

(** Timeout: [timeout] of 50 ticks, [max_retries = 0], the handler always
    returns [RETRY]: the entry of [A] is a [TIMEOUT]. *)
Example scenario_timeout :
  outcome_is
    (run 5 (Steps.machine (Steps.meta Steps.A 0 (Some 50) None) []
              (Steps.always (Returns RETRY) 1))
       (new_StateMachine Steps.w0) Steps.w0)
    (fun e self' w' =>
       e = RunComplete /\
       invocations w' = [(Steps.A, 0)] /\
       (fun e => (h_state e, h_result e, h_error_message e))
         <$> _state_history self'
       = [(Steps.A, TIMEOUT, Some "Timeout after 50s")]).
Proof. vm_compute. repeat split. Qed.

(** A transition cycle is cut by the safety limit of 100 iterations. *)
Example scenario_safety_limit :
  outcome_is
    (run 5 (Steps.machine (Steps.meta Steps.A 3 None None)
              [mkStateTransition Steps.A Steps.A None]
              (Steps.always (Returns SUCCESS) 1))
       (new_StateMachine Steps.w0) Steps.w0)
    (fun e self' w' =>
       e = SafetyLimit /\ length (invocations w') = 100%nat /\
       length (_state_history self') = 100%nat).
Proof. vm_compute. repeat split. Qed.

(** The only transition out of [A] has a guard that raises: the run ends
    after [A], normally. *)
Example scenario_raising_guard :
  outcome_is (run 5 Steps.blocked (new_StateMachine Steps.w0) Steps.w0)
    (fun e self' w' =>
       e = RunComplete /\
       invocations w' = [(Steps.A, 0)] /\
       _current_state self' = Some Steps.A).
Proof. vm_compute. repeat split. Qed.

(** [reset] puts the initial state back and clears the retry counters. *)
Example scenario_reset :
  outcome_is
    (bind (run 5 Steps.chain) (fun _ => reset Steps.chain)
       (new_StateMachine Steps.w0) Steps.w0)
    (fun _ self' _ =>
       get_current_state self' = Some Steps.A /\ _retry_counts self' = ∅).
Proof. vm_compute. repeat split. Qed.

(** * Further properties of the code *)

Arguments MAX_STATES_PER_RUN : simpl never.

(** ** Building metadata: [StateMetadata.__post_init__] and [helpers.py] *)

(** The constructor accepts exactly a non-negative retry limit with no
    timeout or a positive one, and then keeps the fields as given; the
    retry limit is checked first. *)
Theorem metadata_constructor_validates (name description : string)
    (max_retries : Z) (timeout : option Time) (failover_state : option State) :
  ((exists md, new_StateMetadata name description max_retries timeout
                 failover_state = inr md) <->
   0 <= max_retries /\ forall t, timeout = Some t -> 0 < t) /\
  (forall md,
     new_StateMetadata name description max_retries timeout failover_state = inr md ->
     md = mkStateMetadata name description max_retries timeout failover_state) /\
  (max_retries < 0 ->
   new_StateMetadata name description max_retries timeout failover_state
   = inl (ValueError ("max_retries must be >= 0, got " +:+ pretty max_retries))).
Proof.
  unfold new_StateMetadata.
  destruct (decide (max_retries < 0)) as [Hneg|Hpos].
  - rewrite (bool_decide_eq_true_2 _ Hneg).
    split; [|split; [done|done]].
    split; [intros [md H]; done|intros [H _]; lia].
  - rewrite (bool_decide_eq_false_2 _ Hpos).
    destruct timeout as [t|].
    + destruct (decide (t <= 0)) as [Ht|Ht].
      * rewrite (bool_decide_eq_true_2 _ Ht).
        split; [|split; [done|lia]].
        split; [intros [md H]; done|].
        intros [_ H]. specialize (H t eq_refl). lia.
      * rewrite (bool_decide_eq_false_2 _ Ht).
        split; [|split; [by intros md [= <-]|lia]].
        split; [|by eexists].
        intros _. split; [lia|]. intros t' [= <-]. lia.
    + split; [|split; [by intros md [= <-]|lia]].
      split; [|by eexists]. intros _. split; [lia|done].
Qed.

Lemma metadata_constructor_validates_witness :
  (exists md, new_StateMetadata "Fetch" "" 2 (Some 10000) None = inr md) /\
  new_StateMetadata "Fetch" "" (-1) (Some 0) None
  = inl (ValueError "max_retries must be >= 0, got -1").
Proof.
  split.
  - apply (proj1 (metadata_constructor_validates "Fetch" "" 2 (Some 10000) None)).
    split; [lia|]. intros t [= <-]. lia.
  - apply (proj2 (proj2 (metadata_constructor_validates "Fetch" "" (-1) (Some 0) None))).
    lia.
Defined.

Lemma create_config_ok (config : MetadataConfig) nm :
  cfg_name config = Some nm -> config_ok config ->
  create_state_metadata nm (default "" (cfg_description config))
    (default 3 (cfg_max_retries config)) (cfg_timeout config) (cfg_failover config)
  = inr (metadata_of config).
Proof.
  intros Hn (_ & Hr & Ht). unfold create_state_metadata, metadata_of. rewrite Hn.
  destruct (metadata_constructor_validates nm (default "" (cfg_description config))
              (default 3 (cfg_max_retries config)) (cfg_timeout config)
              (cfg_failover config)) as (Hiff & Heq & _).
  destruct (proj2 Hiff (conj Hr Ht)) as [md Hmd].
  rewrite Hmd. f_equal. by apply Heq.
Qed.

Lemma create_config_inr (config : MetadataConfig) nm md :
  cfg_name config = Some nm ->
  create_state_metadata nm (default "" (cfg_description config))
    (default 3 (cfg_max_retries config)) (cfg_timeout config) (cfg_failover config)
  = inr md ->
  config_ok config.
Proof.
  intros Hn Hmd. unfold create_state_metadata in Hmd.
  destruct (metadata_constructor_validates nm (default "" (cfg_description config))
              (default 3 (cfg_max_retries config)) (cfg_timeout config)
              (cfg_failover config)) as (Hiff & _ & _).
  destruct (proj1 Hiff (ex_intro _ md Hmd)) as [Hr Ht].
  split; [by rewrite Hn|]. by split.
Qed.

(** The dictionary that the loop builds when every configuration is
    accepted. *)
Lemma build_metadata_loop_inr configs (acc m : gmap State StateMetadata) :
  build_metadata_loop configs acc = inr m <->
  Forall (fun sc => config_ok sc.2) configs /\
  m = fold_left (fun (r : gmap State StateMetadata) sc =>
                   <[sc.1 := metadata_of sc.2]> r) configs acc.
Proof.
  revert acc. induction configs as [|[s c] rest IH]; intros acc; simpl.
  - split; [intros [= <-]; by split|intros [_ ->]; done].
  - destruct (cfg_name c) as [nm|] eqn:Hn.
    + destruct (create_state_metadata _ _ _ _ _) as [e|md] eqn:Hc.
      * split; [done|]. intros [Hall _]. inversion Hall as [|? ? Hok _]; subst.
        rewrite (create_config_ok c nm Hn Hok) in Hc. done.
      * pose proof (create_config_inr c nm md Hn Hc) as Hok.
        rewrite (create_config_ok c nm Hn Hok) in Hc. injection Hc as <-.
        rewrite IH. split.
        -- intros [Hall ->]. split; [by constructor|done].
        -- intros [Hall ->]. inversion Hall; subst. by split.
    + split; [done|]. intros [Hall _]. inversion Hall as [|? ? Hok _]; subst.
      destruct Hok as [[x Hx] _]. simpl in Hx. congruence.
Qed.

Lemma fold_insert_lookup_other configs (acc : gmap State StateMetadata) (s : State) :
  s ∉ configs.*1 ->
  fold_left (fun (r : gmap State StateMetadata) (sc : State * MetadataConfig) =>
               <[sc.1 := metadata_of sc.2]> r) configs acc !! s
  = acc !! s.
Proof.
  revert acc. induction configs as [|[s0 c0] rest IH]; intros acc Hs; simpl; [done|].
  simpl in Hs. apply not_elem_of_cons in Hs as [Hne Hrest].
  rewrite IH by done. by rewrite lookup_insert_ne.
Qed.

Lemma fold_insert_lookup_member configs (acc : gmap State StateMetadata) s c :
  NoDup configs.*1 -> (s, c) ∈ configs ->
  fold_left (fun (r : gmap State StateMetadata) (sc : State * MetadataConfig) =>
               <[sc.1 := metadata_of sc.2]> r) configs acc !! s
  = Some (metadata_of c).
Proof.
  revert acc. induction configs as [|[s0 c0] rest IH]; intros acc Hnd Hin; simpl.
  - inversion Hin.
  - simpl in Hnd. apply NoDup_cons in Hnd as [Hfresh Hnd].
    apply elem_of_cons in Hin as [[= -> ->]|Hin].
    + rewrite fold_insert_lookup_other by done. by rewrite lookup_insert_eq.
    + by apply IH.
Qed.

Lemma fold_insert_is_Some configs (acc : gmap State StateMetadata) (s : State) :
  is_Some (fold_left (fun (r : gmap State StateMetadata)
                          (sc : State * MetadataConfig) =>
                        <[sc.1 := metadata_of sc.2]> r) configs acc !! s) <->
  s ∈ configs.*1 \/ is_Some (acc !! s).
Proof.
  revert acc. induction configs as [|[s0 c0] rest IH]; intros acc; simpl.
  - split; [by right|]. intros [H|H]; [inversion H|done].
  - rewrite IH. rewrite elem_of_cons.
    destruct (decide (s0 = s)) as [->|Hne].
    + rewrite lookup_insert_eq. split; [intros _; by left; left|by right].
    + rewrite lookup_insert_ne by done. split.
      * intros [H|H]; [left; by right|by right].
      * intros [[H|H]|H]; [congruence|by left|by right].
Qed.

(** [build_metadata_dict] succeeds exactly when every configuration has a
    name, a non-negative retry limit (3 when left out) and no timeout or
    a positive one; the dictionary then has the configured states as its
    keys, each with the fields of its configuration and the defaults for
    what is left out, and every entry is valid metadata. *)
Theorem build_metadata_dict_spec states_enum
    (configs : list (State * MetadataConfig)) :
  (Forall (fun sc => config_ok sc.2) configs <->
   exists m, build_metadata_dict states_enum configs = inr m) /\
  forall m, build_metadata_dict states_enum configs = inr m ->
    (forall s, is_Some (m !! s) <-> s ∈ configs.*1) /\
    (NoDup configs.*1 ->
     forall s c, (s, c) ∈ configs -> m !! s = Some (metadata_of c)) /\
    (forall s md, m !! s = Some md ->
       0 <= max_retries md /\ forall t, timeout md = Some t -> 0 < t).
Proof.
  unfold build_metadata_dict. split.
  - split.
    + intros Hall. eexists. apply build_metadata_loop_inr. by split.
    + intros [m Hm]. by apply build_metadata_loop_inr in Hm as [Hall _].
  - intros m Hm. apply build_metadata_loop_inr in Hm as [Hall ->].
    split; [|split].
    + intros s. rewrite fold_insert_is_Some. rewrite lookup_empty.
      split; [intros [H|[x H]]; [done|done]|by left].
    + intros Hnd s c Hin. by apply fold_insert_lookup_member.
    + intros s md Hs.
      assert (Hgen : forall (acc : gmap State StateMetadata),
                 (forall s md, acc !! s = Some md ->
                    0 <= max_retries md /\ forall t, timeout md = Some t -> 0 < t) ->
                 forall s md,
                   fold_left (fun (r : gmap State StateMetadata)
                                  (sc : State * MetadataConfig) =>
                                <[sc.1 := metadata_of sc.2]> r) configs acc !! s
                   = Some md ->
                   0 <= max_retries md /\ forall t, timeout md = Some t -> 0 < t).
      { clear s md Hs. induction Hall as [|[s0 c0] rest Hok _ IH]; intros acc Hacc s md;
          simpl; [apply Hacc|].
        apply IH. intros s' md'. destruct (decide (s0 = s')) as [->|Hne].
        - rewrite lookup_insert_eq. intros [= <-]. destruct Hok as (_ & Hr & Ht).
          by split.
        - rewrite lookup_insert_ne by done. apply Hacc. }
      apply (Hgen ∅) with (s := s); [|exact Hs].
      intros s' md' H. by rewrite lookup_empty in H.
Qed.

Lemma build_metadata_dict_spec_witness :
  let configs :=
    [(Steps.A, mkMetadataConfig (Some "Fetch") None None (Some 10000)
                 (Some Steps.ERROR));
     (Steps.B, mkMetadataConfig (Some "Process") None (Some 2) None None)] in
  exists m,
    build_metadata_dict Steps.members configs = inr m /\
    m !! Steps.A
    = Some (mkStateMetadata "Fetch" "" 3 (Some 10000) (Some Steps.ERROR)) /\
    m !! Steps.B = Some (mkStateMetadata "Process" "" 2 None None).
Proof.
  intros configs.
  destruct (build_metadata_dict_spec Steps.members configs) as [Hiff Hspec].
  destruct (proj1 Hiff) as [m Hm].
  - repeat constructor; simpl; try (by eexists); try lia.
    + intros t [= <-]. lia.
    + intros t [=].
  - exists m. split; [exact Hm|].
    destruct (Hspec m Hm) as (_ & Hlook & _).
    assert (Hnd : NoDup configs.*1).
    { apply (bool_decide_unpack _). vm_compute. reflexivity. }
    split.
    + apply (Hlook Hnd Steps.A
               (mkMetadataConfig (Some "Fetch") None None (Some 10000)
                  (Some Steps.ERROR))).
      by left.
    + apply (Hlook Hnd Steps.B
               (mkMetadataConfig (Some "Process") None (Some 2) None None)).
      right. by left.
Defined.

(** ** What [_execute_state] does with any handler *)

Lemma timed_out_later ctx now now' timeout :
  now <= now' ->
  has_timed_out ctx now timeout = true -> has_timed_out ctx now' timeout = true.
Proof.
  unfold has_timed_out, elapsed_time. destruct timeout as [t|]; [|done].
  intros Hle H. apply bool_decide_eq_true in H. apply bool_decide_eq_true. lia.
Qed.

(** When the loop is left with a result, it is not [RETRY] or the context
    has timed out. *)
Lemma handler_loop_result fuel h ctx timeout result w r w1 :
  handler_loop fuel h ctx timeout result w = Some (Returns r, w1) ->
  r <> RETRY \/ has_timed_out ctx (clock w1) timeout = true.
Proof.
  revert result w. induction fuel as [|fuel IH]; intros result w; simpl; [done|].
  destruct (has_timed_out ctx (clock w) timeout) eqn:Et.
  - intros [= <- <-]. by right.
  - destruct (invoke h ctx w) as [[r'|msg] w2]; [|done].
    destruct (decide (r' = RETRY)) as [->|Hne].
    + rewrite bool_decide_eq_true_2 by done. simpl. apply IH.
    + rewrite bool_decide_eq_false_2 by done. simpl. intros [= <- <-]. by left.
Qed.

(** No attempt ends in [RETRY]: an unresolved [RETRY] is a [TIMEOUT]. *)
Lemma attempt_not_retry fuel h ctx md w res err w1 :
  attempt fuel h ctx md w = Some (res, err, w1) -> res <> RETRY.
Proof.
  unfold attempt.
  destruct (handler_loop fuel h ctx (timeout md) FAILURE w) as [[[r|msg] w2]|] eqn:El;
    [| |done].
  - destruct (has_timed_out ctx (clock w2) (timeout md)) eqn:Et.
    + by intros [= <- <- <-].
    + intros [= <- <- <-].
      destruct (handler_loop_result _ _ _ _ _ _ _ _ El) as [H|H]; [done|congruence].
  - by intros [= <- <- <-].
Qed.

Lemma settle_same_configuration (state : State) md result self :
  same_configuration self (settle state md result self).
Proof.
  unfold settle, same_configuration.
  destruct (is_failure result); destruct (failover_state md);
    destruct (bool_decide (result = SUCCESS)); simpl; done.
Qed.

(** [_execute_state] never touches the configuration or the watchdog,
    whether it returns or raises. *)
Lemma execute_state_frame cls (state : State) :
  forall fuel self w,
    ends_with (_execute_state fuel cls state self w)
      (fun self' _ => same_configuration self self').
Proof.
  induction fuel as [|fuel IH]; intros self w; [done|].
  cbn [_execute_state].
  destruct (_state_metadata self !! state) as [md|]; [|by simpl].
  cbv zeta. destruct (_get_state_handler cls state) as [e|h]; [by simpl|].
  destruct (attempt _ _ _ _ _) as [[[res err] w1]|]; [|done].
  destruct (is_failure res && _).
  - match goal with |- ends_with (_execute_state _ _ _ ?s1 ?w1) _ =>
      specialize (IH s1 w1); destruct (_execute_state fuel cls state s1 w1) end;
      simpl in *; try done; unfold same_configuration in *; simpl in IH; exact IH.
  - simpl. match goal with |- same_configuration _ (settle _ _ _ ?s1) =>
      pose proof (settle_same_configuration state md res s1) as Hs end.
    unfold same_configuration in *. simpl in Hs. exact Hs.
Qed.

(** An exception out of [_execute_state] is the missing metadata or the
    missing handler of the state, raised before anything was done: a
    failing handler never makes [_execute_state] raise. *)
Theorem execute_state_raises_only_at_entry cls (state : State) :
  forall fuel self w e self' w',
    _execute_state fuel cls state self w = Exn e self' w' ->
    self' = self /\ w' = w /\
    ((_state_metadata self !! state = None /\ e = KeyError (Some state)) \/
     (is_Some (_state_metadata self !! state) /\
      _get_state_handler cls state = inl e /\
      methods cls !! handler_name state = None)).
Proof.
  induction fuel as [|fuel IH]; intros self w e self' w' Hexec; [done|].
  cbn [_execute_state] in Hexec.
  destruct (_state_metadata self !! state) as [md|] eqn:Hmd.
  - cbv zeta in Hexec.
    destruct (_get_state_handler cls state) as [e0|h] eqn:Hh.
    + injection Hexec as <- <- <-. split; [done|]. split; [done|]. right.
      split; [by eexists|]. split; [done|].
      unfold _get_state_handler in Hh.
      by destruct (methods cls !! handler_name state).
    + destruct (attempt _ _ _ _ _) as [[[res err] w1]|]; [|done].
      destruct (is_failure res && _); [|done].
      apply IH in Hexec as (_ & _ & [[Hnone _]|(_ & Hbad & _)]).
      * simpl in Hnone. congruence.
      * congruence.
  - injection Hexec as <- <- <-. split; [done|]. split; [done|]. by left.
Qed.

Lemma execute_state_raises_only_at_entry_witness :
  let self := Steps.initialized Steps.no_handler_a in
  exists e,
    _execute_state 3 Steps.no_handler_a Steps.A self Steps.w0 = Exn e self Steps.w0 /\
    methods Steps.no_handler_a !! handler_name Steps.A = None.
Proof.
  intros self.
  assert (Hex : exists e self' w',
             _execute_state 3 Steps.no_handler_a Steps.A self Steps.w0
             = Exn e self' w').
  { destruct (missing_handler_is_fatal Steps.no_handler_a Steps.A
                (Steps.meta Steps.A 3 None None) self Steps.w0 2%nat)
      as (msg & _ & Hexec & _).
    - vm_compute. reflexivity.
    - vm_compute. reflexivity.
    - by eexists _, _, _. }
  destruct Hex as (e & self' & w' & Hexec).
  destruct (execute_state_raises_only_at_entry _ _ _ _ _ _ _ _ Hexec)
    as (-> & -> & [[Hnone _]|(_ & _ & Hmiss)]).
  - vm_compute in Hnone. discriminate Hnone.
  - exists e. split; [exact Hexec|exact Hmiss].
Defined.

(** ** The bounded history *)

Lemma deque_append_length {A} (maxlen : nat) (d : list A) (x : A) :
  length (deque_append maxlen d x) = Nat.min (length d + 1) maxlen.
Proof.
  unfold deque_append. rewrite length_drop, length_app. simpl. lia.
Qed.

(** A deque that is not over its bound holds, after any appends, the last
    [maxlen] elements of all that was put in. *)
Lemma deque_extend {A} (maxlen : nat) (entries d : list A) :
  (length d <= maxlen)%nat ->
  fold_left (deque_append maxlen) entries d
  = drop (length (d ++ entries) - maxlen) (d ++ entries).
Proof.
  revert d. induction entries as [|e entries IH]; intros d Hlen; simpl.
  - rewrite app_nil_r. replace (length d - maxlen)%nat with 0%nat by lia. done.
  - rewrite IH by (rewrite deque_append_length; lia).
    unfold deque_append.
    set (k1 := (length (d ++ [e]) - maxlen)%nat).
    assert (Hk1 : (k1 <= length (d ++ [e]))%nat) by (unfold k1; lia).
    rewrite <- (drop_app_le (d ++ [e]) entries k1 Hk1).
    rewrite drop_drop. rewrite <- (app_assoc d [e] entries). simpl.
    f_equal. rewrite !length_drop. unfold k1.
    repeat (rewrite length_app; simpl). lia.
Qed.

Lemma execute_state_history_bound cls (state : State) :
  forall fuel self w,
    (length (_state_history self) <= HISTORY_MAXLEN)%nat ->
    ends_with (_execute_state fuel cls state self w)
      (fun self' _ => (length (_state_history self') <= HISTORY_MAXLEN)%nat).
Proof.
  induction fuel as [|fuel IH]; intros self w Hlen; [done|].
  cbn [_execute_state].
  destruct (_state_metadata self !! state) as [md|]; [|by simpl].
  cbv zeta. destruct (_get_state_handler cls state) as [e|h]; [by simpl|].
  destruct (attempt _ _ _ _ _) as [[[res err] w1]|]; [|done].
  destruct (is_failure res && _).
  - apply IH. simpl. rewrite deque_append_length. lia.
  - simpl. rewrite settle_history. simpl. rewrite deque_append_length. lia.
Qed.

(** What one call of [_execute_state] that returns has done, whatever the
    handler: it made one attempt after the other at consecutive retry
    indices starting from the retry counter of the state, at most
    [max_retries - r + 1] of them (one when the counter is already past the
    limit); every attempt is in the history with the state, none as
    [RETRY]; all but the last are failures, and the last has the result
    that is returned. *)
Theorem execute_state_trace cls (state : State) md :
  forall fuel self w result self' w',
    _state_metadata self !! state = Some md ->
    _execute_state fuel cls state self w = Ok result self' w' ->
    let r0 := default 0 (_retry_counts self !! state) in
    exists front last,
      _state_history self'
      = fold_left (deque_append HISTORY_MAXLEN) (front ++ [last])
          (_state_history self) /\
      h_retry_count <$> (front ++ [last]) = seqZ r0 (Z.of_nat (S (length front))) /\
      Forall (fun e => h_state e = state /\ h_result e <> RETRY) (front ++ [last]) /\
      Forall (fun e => is_failure (h_result e) = true) front /\
      h_result last = result /\
      r0 + Z.of_nat (length front) <= Z.max r0 (max_retries md).
Proof.
  induction fuel as [|fuel IH]; intros self w result self' w' Hmd Hexec; [done|].
  cbn [_execute_state] in Hexec. rewrite Hmd in Hexec. cbv zeta in Hexec.
  destruct (_get_state_handler cls state) as [e|h]; [done|].
  destruct (attempt _ _ _ _ _) as [[[res err] w1]|] eqn:Hatt; [|done].
  pose proof (attempt_not_retry _ _ _ _ _ _ _ _ Hatt) as Hnr.
  set (r0 := default 0 (_retry_counts self !! state)) in *.
  set (e := mkStateHistoryEntry state res (clock w1 - clock w) (clock w1) r0 err) in *.
  destruct (is_failure res) eqn:Hfail; simpl in Hexec.
  - destruct (decide (r0 < max_retries md)) as [Hlt|Hge].
    + rewrite (bool_decide_eq_true_2 _ Hlt) in Hexec.
      apply IH in Hexec; [|exact Hmd].
      destruct Hexec as (front & last & Hh & Hidx & Hall & Hfront & Hlast & Hbound).
      assert (Hr1 : default 0 (_retry_counts (retry_again state r0 (record_attempt e self))
                                 !! state) = r0 + 1).
      { simpl. by rewrite lookup_insert_eq. }
      rewrite Hr1 in Hidx, Hbound.
      exists (e :: front), last. cbv zeta. split; [|split; [|split; [|split; [|split]]]].
      * rewrite Hh. reflexivity.
      * simpl app. rewrite fmap_cons, Hidx. simpl length.
        by rewrite (seqZ_succ_cons r0 (S (length front))).
      * simpl app. constructor; [by split|exact Hall].
      * constructor; [exact Hfail|exact Hfront].
      * exact Hlast.
      * simpl length. lia.
    + rewrite (bool_decide_eq_false_2 _ Hge) in Hexec. injection Hexec as <- <- <-.
      exists [], e. cbv zeta. split; [|split; [|split; [|split; [|split]]]].
      * by rewrite settle_history.
      * simpl. by rewrite (seqZ_succ_cons r0 0).
      * by repeat constructor.
      * constructor.
      * reflexivity.
      * simpl. lia.
  - injection Hexec as <- <- <-.
    exists [], e. cbv zeta. split; [|split; [|split; [|split; [|split]]]].
    * by rewrite settle_history.
    * simpl. by rewrite (seqZ_succ_cons r0 0).
    * by repeat constructor.
    * constructor.
    * reflexivity.
    * simpl. lia.
Qed.

Lemma execute_state_trace_witness :
  let cls := Steps.failing_over 2 None Steps.ERROR (Returns FAILURE) 1 in
  let self := Steps.initialized cls in
  let md := Steps.meta Steps.A 2 None (Some Steps.ERROR) in
  let self' := (exhausted (Steps.always (Returns FAILURE) 1) Steps.A md 2 self
                  Steps.w0).1 in
  exists front last,
    _state_history self'
    = fold_left (deque_append HISTORY_MAXLEN) (front ++ [last]) (_state_history self) /\
    h_retry_count <$> (front ++ [last]) = seqZ 0 (Z.of_nat (S (length front))) /\
    h_result last = FAILURE /\
    0 + Z.of_nat (length front) <= Z.max 0 2.
Proof.
  intros cls self md self'.
  assert (Hmd : _state_metadata self !! Steps.A = Some md)
    by (vm_compute; reflexivity).
  assert (Hexec : _execute_state (2 + 1) cls Steps.A self Steps.w0
                  = Ok FAILURE self'
                      (exhausted (Steps.always (Returns FAILURE) 1) Steps.A md 2
                         self Steps.w0).2).
  { apply (execute_state_exhausted cls Steps.A md
             (Steps.always (Returns FAILURE) 1) self Steps.w0 2 0).
    - exact Hmd.
    - vm_compute. reflexivity.
    - exact I.
    - reflexivity.
    - vm_compute. reflexivity.
    - intros ctx now _. left. reflexivity. }
  destruct (execute_state_trace cls Steps.A md _ _ _ _ _ _ Hmd Hexec)
    as (front & last & Hh & Hidx & _ & _ & Hlast & Hbound).
  assert (Hr0 : default 0 (_retry_counts self !! Steps.A) = 0)
    by (vm_compute; reflexivity).
  rewrite Hr0 in Hidx, Hbound.
  exists front, last. split; [exact Hh|]. split; [exact Hidx|].
  split; [exact Hlast|exact Hbound].
Defined.

(** ** The run loop as a whole *)

Lemma check_watchdog_cases self w :
  (exists msg, _check_watchdog self w = Exn (RuntimeError msg) self w) \/
  (exists selfc,
     _check_watchdog self w = Ok tt selfc w /\
     same_configuration self selfc /\
     _current_state selfc = _current_state self /\
     _state_history selfc = _state_history self /\
     _retry_counts selfc = _retry_counts self).
Proof.
  unfold _check_watchdog, bind, get_self, time_time.
  destruct (_watchdog_timeout self) as [T|] eqn:HT.
  - destruct (bool_decide (T <= clock w - _watchdog_last_activity self)).
    + left. by eexists.
    + right. destruct (_ && _); eexists; (split; [reflexivity|]);
        unfold same_configuration; simpl; rewrite ?HT; done.
  - right. exists self. split; [reflexivity|]. by unfold same_configuration.
Qed.

Lemma same_configuration_trans self1 self2 self3 :
  same_configuration self1 self2 -> same_configuration self2 self3 ->
  same_configuration self1 self3.
Proof. unfold same_configuration. intros H1 H2. intuition congruence. Qed.

(** An invariant of the engine that the watchdog check, the execution of
    a state and a change of current state keep, holds when the run loop
    ends, however it ends. *)
Lemma run_loop_ends_with (Inv : StateMachine -> Prop) fuel cls :
  (forall self selfc w, Inv self -> _check_watchdog self w = Ok tt selfc w -> Inv selfc) ->
  (forall state self w, Inv self ->
     ends_with (_execute_state fuel cls state self w) (fun self' _ => Inv self')) ->
  (forall s self, Inv self -> Inv (set_current_state s self)) ->
  forall remaining steps self w,
    Inv self ->
    ends_with (run_loop fuel cls remaining steps self w) (fun self' _ => Inv self').
Proof.
  intros Hwd Hexec Hset. induction remaining as [|remaining IH];
    intros steps self w Hinv; [exact Hinv|].
  cbn [run_loop]. unfold bind at 1.
  destruct (check_watchdog_cases self w) as [[msg ->]|(selfc & Hc & _)]; [exact Hinv|].
  rewrite Hc. pose proof (Hwd _ _ _ Hinv Hc) as Hinvc.
  unfold bind at 1, get_self at 1.
  destruct (_current_state selfc) as [current|]; [|exact Hinvc].
  unfold bind at 1. specialize (Hexec current selfc w Hinvc).
  destruct (_execute_state fuel cls current selfc w) as [result self1 w1|e self1 w1|];
    [|exact Hexec|exact I].
  simpl in Hexec. unfold bind at 1, get_self at 1.
  destruct (negb _); [by apply IH|].
  unfold bind at 1, time_time at 1.
  destruct (_get_next_state self1 current result (clock w1)); [|exact Hexec].
  unfold bind at 1, update_self at 1. apply IH. by apply Hset.
Qed.

(** The same for the exceptions that leave the run loop. *)
Lemma run_loop_raises_only (P : Exception -> Prop) fuel cls :
  (forall msg, P (RuntimeError msg)) -> P (KeyError None) ->
  (forall state self w, raises_only (_execute_state fuel cls state self w) P) ->
  forall remaining steps self w,
    raises_only (run_loop fuel cls remaining steps self w) P.
Proof.
  intros Hrt Hkey Hexec. induction remaining as [|remaining IH];
    intros steps self w; [exact I|].
  cbn [run_loop]. unfold bind at 1.
  destruct (check_watchdog_cases self w) as [[msg ->]|(selfc & Hc & _)]; [apply Hrt|].
  rewrite Hc. unfold bind at 1, get_self at 1.
  destruct (_current_state selfc) as [current|]; [|exact Hkey].
  unfold bind at 1. specialize (Hexec current selfc w).
  destruct (_execute_state fuel cls current selfc w) as [result self1 w1|e self1 w1|];
    [|exact Hexec|exact I].
  unfold bind at 1, get_self at 1.
  destruct (negb _); [by apply IH|].
  unfold bind at 1, time_time at 1.
  destruct (_get_next_state self1 current result (clock w1)); [|exact I].
  unfold bind at 1, update_self at 1. apply IH.
Qed.

Lemma run_loop_steps fuel cls :
  forall remaining steps self w steps' self' w',
    run_loop fuel cls remaining steps self w = Ok steps' self' w' ->
    (steps <= steps' <= steps + remaining)%nat /\
    ((steps' < steps + remaining)%nat ->
     exists current result,
       _current_state self' = Some current /\
       _get_next_state self' current result (clock w') = None).
Proof.
  induction remaining as [|remaining IH]; intros steps self w steps' self' w' Hrun.
  - injection Hrun as <- <- <-. split; lia.
  - cbn [run_loop] in Hrun. unfold bind at 1 in Hrun.
    destruct (check_watchdog_cases self w) as [[msg Hc]|(selfc & Hc & _)];
      rewrite Hc in Hrun; [done|].
    unfold bind at 1, get_self at 1 in Hrun.
    destruct (_current_state selfc) as [current|] eqn:Hcur; [|done].
    unfold bind at 1 in Hrun.
    destruct (_execute_state fuel cls current selfc w) as [result self1 w1|e self1 w1|];
      [|done|done].
    unfold bind at 1, get_self at 1 in Hrun.
    destruct (bool_decide (_current_state self1 = Some current)) eqn:Hsame;
      simpl in Hrun.
    + unfold bind at 1, time_time at 1 in Hrun.
      destruct (_get_next_state self1 current result (clock w1)) as [next|] eqn:Hnext.
      * unfold bind at 1, update_self at 1 in Hrun.
        apply IH in Hrun as [Hb Hstuck]. split; [lia|].
        intros Hlt. apply Hstuck. lia.
      * injection Hrun as <- <- <-. split; [lia|]. intros _.
        apply bool_decide_eq_true in Hsame. by exists current, result.
    + apply IH in Hrun as [Hb Hstuck]. split; [lia|].
      intros Hlt. apply Hstuck. lia.
Qed.

(** [run] before the loop: an initialised engine only has its retry
    counters cleared, whatever they were and whatever the class now
    defines. *)
Lemma run_initialized fuel cls self w :
  _initialized self = true ->
  run fuel cls self w
  = bind (run_loop fuel cls MAX_STATES_PER_RUN 0)
      (fun steps =>
         if bool_decide (MAX_STATES_PER_RUN <= steps)%nat then ret SafetyLimit
         else ret RunComplete)
      (set_retry_counts ∅ self) w.
Proof.
  intros Hi. unfold run. unfold bind at 1, get_self at 1. rewrite Hi. reflexivity.
Qed.

Lemma run_uninitialized fuel cls self w :
  _initialized self = false ->
  run fuel cls self w
  = match _validate (configured cls self) with
    | Some e => Exn e (configured cls self) w
    | None =>
        bind (run_loop fuel cls MAX_STATES_PER_RUN 0)
          (fun steps =>
             if bool_decide (MAX_STATES_PER_RUN <= steps)%nat then ret SafetyLimit
             else ret RunComplete)
          (set_retry_counts ∅ (set_initialized true (configured cls self))) w
    end.
Proof.
  intros Hi. unfold run. unfold bind at 1, get_self at 1. rewrite Hi. simpl negb.
  cbv iota. unfold bind at 1. unfold initialize. unfold bind at 1, get_self at 1.
  rewrite Hi. unfold bind at 1, update_self at 1. fold (configured cls self).
  unfold bind at 1, get_self at 1.
  destruct (_validate (configured cls self)); reflexivity.
Qed.

(** An engine invariant that the steps of [run] keep holds after [run],
    however it ends. *)
Lemma run_ends_with (Inv : StateMachine -> Prop) fuel cls self w :
  (forall self selfc w, Inv self -> _check_watchdog self w = Ok tt selfc w -> Inv selfc) ->
  (forall state self w, Inv self ->
     ends_with (_execute_state fuel cls state self w) (fun self' _ => Inv self')) ->
  (forall s self, Inv self -> Inv (set_current_state s self)) ->
  (forall self, Inv self -> Inv (set_retry_counts ∅ self)) ->
  (_initialized self = false ->
   Inv (configured cls self) /\ Inv (set_initialized true (configured cls self))) ->
  Inv self ->
  ends_with (run fuel cls self w) (fun self' _ => Inv self').
Proof.
  intros Hwd Hexec Hset Hclear Hconf Hinv.
  assert (Hloop : forall self0, Inv self0 ->
            ends_with
              (bind (run_loop fuel cls MAX_STATES_PER_RUN 0)
                 (fun steps =>
                    if bool_decide (MAX_STATES_PER_RUN <= steps)%nat
                    then ret SafetyLimit else ret RunComplete)
                 (set_retry_counts ∅ self0) w) (fun self' _ => Inv self')).
  { intros self0 H0. unfold bind.
    pose proof (run_loop_ends_with Inv fuel cls Hwd Hexec Hset MAX_STATES_PER_RUN 0
                  (set_retry_counts ∅ self0) w (Hclear _ H0)) as Hl.
    destruct (run_loop fuel cls MAX_STATES_PER_RUN 0 (set_retry_counts ∅ self0) w);
      simpl in *; [|exact Hl|exact I].
    destruct (bool_decide _); exact Hl. }
  destruct (_initialized self) eqn:Hi.
  - rewrite run_initialized by done. by apply Hloop.
  - rewrite run_uninitialized by done. destruct (Hconf eq_refl) as [Hc1 Hc2].
    destruct (_validate (configured cls self)); [exact Hc1|]. by apply Hloop.
Qed.

(** The history never holds more than 100 entries, however [run] ends. *)
Theorem run_history_bounded fuel cls self w :
  (length (_state_history self) <= HISTORY_MAXLEN)%nat ->
  ends_with (run fuel cls self w)
    (fun self' _ => (length (_state_history self') <= HISTORY_MAXLEN)%nat).
Proof.
  intros Hlen.
  apply (run_ends_with
           (fun s => (length (_state_history s) <= HISTORY_MAXLEN)%nat)); try done.
  - intros s sc w0 Hs Hc.
    destruct (check_watchdog_cases s w0) as [[msg Hx]|(sc' & Hc' & _ & _ & Hh & _)];
      [congruence|].
    rewrite Hc' in Hc. injection Hc as <-. by rewrite Hh.
  - intros state s w0 Hs. by apply execute_state_history_bound.
Qed.

Lemma run_history_bounded_witness :
  (length (_state_history (new_StateMachine Steps.w0)) <= HISTORY_MAXLEN)%nat /\
  ends_with
    (run 5 (Steps.machine (Steps.meta Steps.A 3 None None)
              [mkStateTransition Steps.A Steps.A None]
              (Steps.always (Returns SUCCESS) 1))
       (new_StateMachine Steps.w0) Steps.w0)
    (fun self' _ => (length (_state_history self') <= HISTORY_MAXLEN)%nat).
Proof.
  assert (H0 : (length (_state_history (new_StateMachine Steps.w0))
                <= HISTORY_MAXLEN)%nat) by (vm_compute; lia).
  split; [exact H0|]. apply run_history_bounded. exact H0.
Defined.

Lemma execute_state_methods cls cls' (state : State) :
  methods cls' = methods cls ->
  forall fuel self w,
    _execute_state fuel cls' state self w = _execute_state fuel cls state self w.
Proof.
  intros Hm. induction fuel as [|fuel IH]; intros self w; [done|].
  cbn [_execute_state]. unfold _get_state_handler. rewrite Hm.
  destruct (_state_metadata self !! state); [|done].
  cbv zeta. destruct (methods cls !! handler_name state); [|done].
  destruct (attempt _ _ _ _ _) as [[[res err] w1]|]; [|done].
  destruct (is_failure res && _); [apply IH|done].
Qed.

Lemma run_loop_methods cls cls' fuel :
  methods cls' = methods cls ->
  forall remaining steps self w,
    run_loop fuel cls' remaining steps self w = run_loop fuel cls remaining steps self w.
Proof.
  intros Hm. induction remaining as [|remaining IH]; intros steps self w; [done|].
  cbn [run_loop]. unfold bind, get_self, time_time, update_self.
  destruct (_check_watchdog self w) as [[] selfc wc| |]; [|done|done].
  destruct (_current_state selfc) as [current|]; [|done].
  rewrite (execute_state_methods cls cls' current Hm).
  destruct (_execute_state fuel cls current selfc wc) as [result self1 w1| |];
    [|done|done].
  destruct (negb _); [apply IH|].
  destruct (_get_next_state self1 current result (clock w1)); [|done].
  apply IH.
Qed.

(** Once the engine is initialised its definitions are fixed: the code of
    [run] leaves the state set, the metadata, the transitions, the lookup
    map and the flag as they are, and what the class defines by then does
    not matter, only its handlers do.  (The watchdog fields are left out:
    [record_activity] is there for handlers to call.) *)
Theorem run_configuration_fixed fuel cls self w :
  _initialized self = true ->
  ends_with (run fuel cls self w) (fun self' _ => same_definitions self self') /\
  forall cls', methods cls' = methods cls -> run fuel cls' self w = run fuel cls self w.
Proof.
  intros Hi. split.
  - apply (run_ends_with (fun s => same_definitions self s)).
    + intros s sc w0 Hs Hc.
      destruct (check_watchdog_cases s w0) as [[msg Hx]|(sc' & Hc' & Hsame & _)];
        [congruence|].
      rewrite Hc' in Hc. injection Hc as <-.
      destruct Hs as (H1 & H2 & H3 & H4 & H5).
      destruct Hsame as (G1 & G2 & G3 & G4 & G5 & _).
      unfold same_definitions. repeat split; congruence.
    + intros state s w0 Hs. pose proof (execute_state_frame cls state fuel s w0) as Hf.
      destruct Hs as (H1 & H2 & H3 & H4 & H5).
      destruct (_execute_state fuel cls state s w0); simpl in *; try done;
        destruct Hf as (G1 & G2 & G3 & G4 & G5 & _);
        unfold same_definitions; repeat split; congruence.
    + intros s0 s Hs. exact Hs.
    + intros s Hs. exact Hs.
    + congruence.
    + by unfold same_definitions.
  - intros cls' Hm. rewrite !run_initialized by done.
    unfold bind. by rewrite (run_loop_methods cls cls' fuel Hm).
Qed.

Lemma run_configuration_fixed_witness :
  let self := Steps.initialized Steps.chain in
  _initialized self = true /\
  run 5 Steps.wrong_initial self Steps.w0 = run 5 Steps.chain self Steps.w0.
Proof.
  intros self.
  assert (Hi : _initialized self = true) by (vm_compute; reflexivity).
  split; [exact Hi|].
  apply (proj2 (run_configuration_fixed 5 Steps.chain self Steps.w0 Hi)).
  reflexivity.
Defined.

(** The exceptions that can leave [run]: the configuration error of the
    first call, the watchdog, a state without metadata or a state without
    handler.  What a handler or a guard raises never leaves [run]. *)
Theorem run_raises_only_engine_errors fuel cls self w :
  raises_only (run fuel cls self w)
    (fun e =>
       engine_error cls e \/
       (_initialized self = false /\ exists msg, e = ValueError msg /\ config_error cls msg)).
Proof.
  assert (Hloop : forall self0,
            raises_only
              (bind (run_loop fuel cls MAX_STATES_PER_RUN 0)
                 (fun steps =>
                    if bool_decide (MAX_STATES_PER_RUN <= steps)%nat
                    then ret SafetyLimit else ret RunComplete) self0 w)
              (engine_error cls)).
  { intros self0. unfold bind.
    pose proof (run_loop_raises_only (engine_error cls) fuel cls) as Hl.
    specialize (Hl (fun msg => or_introl (ex_intro _ msg eq_refl))
                  (or_intror (or_introl (ex_intro _ None eq_refl)))).
    assert (Hexec : forall state s w0,
              raises_only (_execute_state fuel cls state s w0) (engine_error cls)).
    { intros state s w0.
      destruct (_execute_state fuel cls state s w0) as [| e s' w'|] eqn:Hx; [done| |done].
      simpl. apply execute_state_raises_only_at_entry in Hx
        as (_ & _ & [[_ ->]|(_ & Hh & _)]).
      - right. left. by eexists.
      - right. right. by exists state. }
    specialize (Hl Hexec MAX_STATES_PER_RUN 0%nat self0 w).
    destruct (run_loop fuel cls MAX_STATES_PER_RUN 0 self0 w); simpl in *;
      [|exact Hl|exact I].
    by destruct (bool_decide _). }
  destruct (_initialized self) eqn:Hi.
  - rewrite run_initialized by done.
    specialize (Hloop (set_retry_counts ∅ self)).
    destruct (bind _ _ _ _); simpl in *; auto.
  - rewrite run_uninitialized by done.
    destruct (_validate (configured cls self)) as [e|] eqn:Hv.
    + simpl. right. split; [done|].
      apply validate_configured_Some in Hv as (msg & -> & Hmsg). by exists msg.
    + specialize (Hloop (set_retry_counts ∅ (set_initialized true (configured cls self)))).
      destruct (bind _ _ _ _); simpl in *; auto.
Qed.

Lemma run_loop_keeps_initialized fuel cls remaining steps self w :
  _initialized self = true ->
  ends_with (run_loop fuel cls remaining steps self w)
    (fun s _ => _initialized s = true).
Proof.
  intros Hi.
  apply (run_loop_ends_with (fun s => _initialized s = true) fuel cls).
  - intros s sc w0 Hs Hc.
    destruct (check_watchdog_cases s w0)
      as [[msg Hx]|(sc' & Hc' & Hsame & _)]; [congruence|].
    rewrite Hc' in Hc. injection Hc as <-.
    destruct Hsame as (_ & _ & _ & _ & Hii & _). congruence.
  - intros state s w0 Hs.
    pose proof (execute_state_frame cls state fuel s w0) as Hf.
    destruct (_execute_state fuel cls state s w0) as [r s' w'|e s' w'|];
      [| |exact I]; simpl in Hf |- *;
      destruct Hf as (_ & _ & _ & _ & Hii & _); congruence.
  - intros s0 s Hs. exact Hs.
  - exact Hi.
Qed.

Lemma bind_Ok {A B} (c : Eng A) (k : A -> Eng B) self w b self' w' :
  bind c k self w = Ok b self' w' ->
  exists a s1 w1, c self w = Ok a s1 w1 /\ k a s1 w1 = Ok b self' w'.
Proof.
  unfold bind. destruct (c self w) as [a s1 w1| |]; [|done|done].
  intros H. by exists a, s1, w1.
Qed.

(** The loop and the last lines of [run], for any bound on the number of
    iterations. *)
Lemma loop_complete fuel cls (limit : nat) self w e self' w' :
  _initialized self = true ->
  bind (run_loop fuel cls limit 0)
    (fun steps =>
       if bool_decide (limit <= steps)%nat then ret SafetyLimit
       else ret RunComplete) self w = Ok e self' w' ->
  _initialized self' = true /\
  (e = RunComplete ->
   exists current result,
     _current_state self' = Some current /\
     _get_next_state self' current result (clock w') = None).
Proof.
  intros Hi Hb. apply bind_Ok in Hb as (steps & s1 & w1 & Hl & Hk).
  pose proof (run_loop_keeps_initialized fuel cls limit 0 self w Hi) as Hends.
  rewrite Hl in Hends. unfold ends_with in Hends.
  apply run_loop_steps in Hl as [Hbound Hstuck].
  destruct (decide (limit <= steps)%nat) as [Hcap|Hcap].
  - rewrite (bool_decide_eq_true_2 _ Hcap) in Hk. injection Hk as <- <- <-.
    split; [exact Hends|]. intros Hx. discriminate Hx.
  - rewrite (bool_decide_eq_false_2 _ Hcap) in Hk. injection Hk as <- <- <-.
    split; [exact Hends|]. intros _. apply Hstuck. lia.
Qed.

(** When [run] returns, the engine is initialised; and when it returns
    without having hit the safety limit, it has stopped in a state none of
    whose transitions passes. *)
Theorem run_complete_is_stuck fuel cls self w e self' w' :
  run fuel cls self w = Ok e self' w' ->
  _initialized self' = true /\
  (e = RunComplete ->
   exists current result,
     _current_state self' = Some current /\
     _get_next_state self' current result (clock w') = None).
Proof.
  intros Hrun.
  destruct (_initialized self) eqn:Hi.
  - rewrite run_initialized in Hrun by exact Hi.
    exact (loop_complete fuel cls MAX_STATES_PER_RUN (set_retry_counts ∅ self)
             w e self' w' Hi Hrun).
  - rewrite run_uninitialized in Hrun by exact Hi.
    destruct (_validate (configured cls self)); [discriminate Hrun|].
    exact (loop_complete fuel cls MAX_STATES_PER_RUN
             (set_retry_counts ∅ (set_initialized true (configured cls self)))
             w e self' w' eq_refl Hrun).
Qed.

Lemma outcome_is_Ok {A} (o : Outcome A) (P : A -> StateMachine -> World -> Prop) :
  outcome_is o P -> exists a self w, o = Ok a self w /\ P a self w.
Proof. destruct o as [a self w| |]; simpl; [|done|done]. intros H. by exists a, self, w. Qed.

Lemma run_complete_is_stuck_witness :
  exists self' w' current result,
    run 5 Steps.blocked (new_StateMachine Steps.w0) Steps.w0
    = Ok RunComplete self' w' /\
    _initialized self' = true /\
    _current_state self' = Some current /\
    _get_next_state self' current result (clock w') = None.
Proof.
  assert (Hok : outcome_is (run 5 Steps.blocked (new_StateMachine Steps.w0) Steps.w0)
                  (fun e _ _ => e = RunComplete)) by (vm_compute; reflexivity).
  apply outcome_is_Ok in Hok as (e & self' & w' & Hrun & ->).
  destruct (run_complete_is_stuck _ _ _ _ _ _ _ Hrun)
    as (Hi & Hstuck).
  destruct (Hstuck eq_refl) as (current & result & Hcur & Hnone).
  exists self', w', current, result. by repeat split.
Defined.

(** ** Results other than success and failure; retries with no failover *)

Lemma settle_neutral (state : State) md result self :
  is_failure result = false -> result <> SUCCESS ->
  settle state md result self = self.
Proof.
  intros Hf Hs. unfold settle. rewrite Hf. by rewrite bool_decide_eq_false_2.
Qed.

(** A handler that returns [SKIP]: the state is executed once, the attempt
    is recorded as [SKIP] and returned, and nothing else changes; [SKIP] is
    not retried and, unlike [SUCCESS], does not reset the retry counter of
    the state. *)
Theorem execute_state_skip fuel cls (state : State) md h self w :
  _state_metadata self !! state = Some md ->
  methods cls !! handler_name state = Some h ->
  in_time h md ->
  let r := default 0 (_retry_counts self !! state) in
  let ctx := mkStateExecutionContext state r (clock w) in
  (h ctx (clock w)).1 = Returns SKIP ->
  let self' := record_attempt (attempt_entry h state r SKIP w) self in
  _execute_state (S fuel) cls state self w = Ok SKIP self' (invoke h ctx w).2 /\
  invocations (invoke h ctx w).2 = invocations w ++ [(state, r)] /\
  _retry_counts self' = _retry_counts self /\
  _current_state self' = _current_state self.
Proof.
  intros Hmd Hh Hin r ctx Hskip self'.
  split; [|split; [apply invoke_world|done]].
  rewrite (execute_state_settle fuel cls state md h self w SKIP Hmd Hh Hin).
  - fold r. by rewrite settle_neutral.
  - done.
  - fold r ctx. by rewrite Hskip.
  - by left.
Qed.

Lemma execute_state_skip_witness :
  let cls := Steps.machine (Steps.meta Steps.A 3 None (Some Steps.ERROR)) []
               (Steps.always (Returns SKIP) 1) in
  let self := set_retry_counts {[Steps.A := 2]} (Steps.initialized cls) in
  exists self' w',
    _execute_state 1 cls Steps.A self Steps.w0 = Ok SKIP self' w' /\
    invocations w' = [(Steps.A, 2)] /\
    _retry_counts self' = {[Steps.A := 2]} /\
    _current_state self' = Some Steps.A.
Proof.
  intros cls self.
  destruct (execute_state_skip 0 cls Steps.A
              (Steps.meta Steps.A 3 None (Some Steps.ERROR))
              (Steps.always (Returns SKIP) 1) self Steps.w0)
    as (Hexec & Hinv & Hrc & Hcur).
  - vm_compute. reflexivity.
  - vm_compute. reflexivity.
  - exact I.
  - reflexivity.
  - eexists _, _. split; [exact Hexec|]. split; [|split].
    + rewrite Hinv. vm_compute. reflexivity.
    + exact Hrc.
    + rewrite Hcur. vm_compute. reflexivity.
Defined.

Lemma settle_no_failover (state : State) md result self :
  failover_state md = None -> is_failure result = true ->
  settle state md result self = self.
Proof.
  intros HF Hres. unfold settle. rewrite HF, Hres.
  rewrite bool_decide_eq_false_2; [done|].
  intros ->. discriminate Hres.
Qed.

(** Retries exhausted and no failover state, for a state whose timeout is
    none or positive and a handler that always fails: after the [n+1]
    attempts a failure result is returned ([FAILURE], or [TIMEOUT] when the
    last call overran the timeout; always [FAILURE] when the calls return
    within the timeout), the current state is unchanged and the retry
    counter of the state stays at [n]; so when the state is executed again
    in the same run, it gets a single attempt, at retry index [n]. *)
Theorem exhausted_without_failover cls (state : State) md (h : Handler) self w
    (n fuel : nat) :
  _state_metadata self !! state = Some md ->
  methods cls !! handler_name state = Some h ->
  valid_timeout md ->
  max_retries md = Z.of_nat n ->
  failover_state md = None ->
  default 0 (_retry_counts self !! state) = 0 ->
  (forall ctx now, current_state ctx = state -> fails (h ctx now).1) ->
  exists reported self' w',
    _execute_state (n + S fuel) cls state self w = Ok reported self' w' /\
    (reported = FAILURE \/ reported = TIMEOUT) /\
    (in_time h md -> reported = FAILURE) /\
    invocations w'
    = invocations w ++ ((fun i => (state, i)) <$> seqZ 0 (Z.of_nat (S n))) /\
    _current_state self' = _current_state self /\
    default 0 (_retry_counts self' !! state) = Z.of_nat n /\
    exists reported' self'' w'',
      _execute_state (S fuel) cls state self' w' = Ok reported' self'' w'' /\
      (reported' = FAILURE \/ reported' = TIMEOUT) /\
      (in_time h md -> reported' = FAILURE) /\
      invocations w'' = invocations w' ++ [(state, Z.of_nat n)] /\
      _current_state self'' = _current_state self /\
      default 0 (_retry_counts self'' !! state) = Z.of_nat n.
Proof.
  intros Hmd Hh Hv Hmax HF Hr0 Hfail.
  destruct (execute_state_exhausted_any cls state md h self w n fuel
              Hmd Hh Hv Hmax Hr0 Hfail)
    as (Hexec & Hisf & Hkind & Hfast & Hinv & Hcur & Hrn).
  cbv zeta in Hexec, Hisf, Hkind, Hfast, Hinv, Hcur, Hrn.
  destruct (retried_attempts_frame h md state n 0 self w) as (Hmdn & _).
  { intros ctx now Hs _. by apply Hfail. }
  { exact Hr0. }
  set (selfn := (retried_attempts h md state 0 n self w).1) in *.
  set (wn := (retried_attempts h md state 0 n self w).2) in *.
  rewrite (settle_no_failover _ _ _ _ HF Hisf) in Hexec.
  set (self' := record_attempt (attempt_record h md state (Z.of_nat n) wn) selfn)
    in *.
  set (w' := (attempt_outcome h md state (Z.of_nat n) wn).2) in *.
  assert (Hrc' : default 0 (_retry_counts self' !! state) = Z.of_nat n)
    by exact Hrn.
  assert (Hmds : _state_metadata self' !! state = Some md).
  { unfold self'. simpl. by rewrite Hmdn. }
  exists (attempt_outcome h md state (Z.of_nat n) wn).1.1, self', w'.
  split; [exact Hexec|]. split; [exact Hkind|]. split; [exact Hfast|].
  split; [exact Hinv|]. split; [exact Hcur|]. split; [exact Hrc'|].
  assert (Hcall : fails (h (mkStateExecutionContext state (Z.of_nat n) (clock w'))
                           (clock w')).1) by (by apply Hfail).
  destruct (attempt_outcome_fails h md state (Z.of_nat n) w' Hcall)
    as (Hisf' & Hkind' & Hfast').
  exists (attempt_outcome h md state (Z.of_nat n) w').1.1,
    (record_attempt (attempt_record h md state (Z.of_nat n) w') self'),
    (attempt_outcome h md state (Z.of_nat n) w').2.
  split.
  { rewrite (execute_state_settle_any fuel cls state md h self' w' Hmds Hh Hv);
      rewrite Hrc'.
    - by rewrite (settle_no_failover _ _ _ _ HF Hisf').
    - rewrite invoke_outcome. destruct Hcall as [->|[msg ->]]; done.
    - right. lia. }
  split; [exact Hkind'|]. split; [exact Hfast'|].
  split; [by rewrite attempt_outcome_world, invoke_world|].
  split; [exact Hcur|exact Hrc'].
Qed.

Lemma exhausted_without_failover_witness :
  let cls := Steps.machine (Steps.meta Steps.A 1 None None) []
               (Steps.always (Returns FAILURE) 1) in
  let self := Steps.initialized cls in
  exists self' w' self'' w'',
    _execute_state (1 + 1) cls Steps.A self Steps.w0 = Ok FAILURE self' w' /\
    invocations w' = [(Steps.A, 0); (Steps.A, 1)] /\
    default 0 (_retry_counts self' !! Steps.A) = 1 /\
    _execute_state 1 cls Steps.A self' w' = Ok FAILURE self'' w'' /\
    invocations w'' = invocations w' ++ [(Steps.A, 1)].
Proof.
  intros cls self.
  destruct (exhausted_without_failover cls Steps.A
              (Steps.meta Steps.A 1 None None)
              (Steps.always (Returns FAILURE) 1) self Steps.w0 1 0)
    as (reported & self' & w' & Hexec & _ & Hfast & Hinv & _ & Hrc
        & reported' & self'' & w'' & Hagain & _ & Hfast' & Hinv2 & _).
  - vm_compute. reflexivity.
  - vm_compute. reflexivity.
  - intros t Ht. discriminate Ht.
  - reflexivity.
  - reflexivity.
  - vm_compute. reflexivity.
  - intros ctx now _. left. reflexivity.
  - rewrite (Hfast I) in Hexec. rewrite (Hfast' I) in Hagain.
    exists self', w', self'', w''. split; [exact Hexec|]. split; [exact Hinv|].
    split; [exact Hrc|]. split; [exact Hagain|exact Hinv2].
Defined.

(** The same state with a handler that fails after the timeout: both
    attempts are recorded as [TIMEOUT] and [TIMEOUT] is returned, with the
    current state and the counter as above. *)
Lemma exhausted_without_failover_slow :
  let cls := Steps.machine (Steps.meta Steps.A 1 (Some 50) None) []
               (Steps.always (Returns FAILURE) 60) in
  let self := Steps.initialized cls in
  outcome_is (_execute_state 6 cls Steps.A self Steps.w0)
    (fun result self' w' =>
       result = TIMEOUT /\
       invocations w' = [(Steps.A, 0); (Steps.A, 1)] /\
       _current_state self' = _current_state self /\
       _retry_counts self' !! Steps.A = Some 1 /\
       h_result <$> _state_history self' = [TIMEOUT; TIMEOUT]).
Proof.
  intros cls self. vm_compute. repeat split.
Qed.

(** ** Termination of the inner loop *)

(** With a timeout the inner loop ends: every round that returns [RETRY]
    costs at least the pause of 100 ticks. *)
Lemma handler_loop_terminates (h : Handler) ctx (t : Time) :
  (forall c now, 0 <= (h c now).2) ->
  forall fuel result w,
    (0 < fuel)%nat ->
    t - elapsed_time ctx (clock w) <= 100 * (Z.of_nat fuel - 1) ->
    exists o w1, handler_loop fuel h ctx (Some t) result w = Some (o, w1).
Proof.
  intros Hd. induction fuel as [|fuel IH]; intros result w Hpos Hfuel; [lia|].
  cbn [handler_loop]. unfold has_timed_out.
  destruct (decide (t <= elapsed_time ctx (clock w))) as [Hout|Hin].
  - rewrite (bool_decide_eq_true_2 _ Hout). by eexists _, _.
  - rewrite (bool_decide_eq_false_2 _ Hin).
    destruct (invoke h ctx w) as [[r|msg] w2] eqn:Einv; [|by eexists _, _].
    destruct (decide (r = RETRY)) as [->|Hne].
    + rewrite bool_decide_eq_true_2 by done. simpl negb. cbv iota.
      assert (Hclock : clock w <= clock w2).
      { unfold invoke in Einv. specialize (Hd ctx (clock w)).
        destruct (h ctx (clock w)) as [o d]. injection Einv as _ <-. simpl in *. lia. }
      apply IH.
      * unfold elapsed_time in *. lia.
      * unfold elapsed_time, sleep, RETRY_PAUSE in *. simpl. lia.
    + rewrite bool_decide_eq_false_2 by done. by eexists _, _.
Qed.

(** A state with a timeout always finishes executing: [_execute_state]
    returns a result once the fuel covers the retries that are left and
    the rounds of one inner loop, [timeout / 100 + 1]. *)
Theorem execute_state_terminates cls (state : State) md (h : Handler) (t : Time) :
  methods cls !! handler_name state = Some h ->
  timeout md = Some t -> 0 < t ->
  (forall c now, 0 <= (h c now).2) ->
  forall fuel self w,
    _state_metadata self !! state = Some md ->
    t <= 100 * (Z.of_nat fuel - 1
                - Z.max 0 (max_retries md - default 0 (_retry_counts self !! state))) ->
    exists result self' w',
      _execute_state fuel cls state self w = Ok result self' w'.
Proof.
  intros Hh Ht Hpos Hd. induction fuel as [|fuel IH]; intros self w Hmd Hfuel; [lia|].
  cbn [_execute_state]. rewrite Hmd. cbv zeta.
  unfold _get_state_handler. rewrite Hh.
  set (r0 := default 0 (_retry_counts self !! state)) in *.
  set (ctx := mkStateExecutionContext state r0 (clock w)).
  destruct (handler_loop_terminates h ctx t Hd (S fuel) FAILURE w) as (o & w1 & Hloop).
  { lia. }
  { unfold elapsed_time, ctx. simpl. lia. }
  unfold attempt. rewrite Ht, Hloop.
  assert (Hatt : exists res err,
            match o with
            | Returns result =>
                if has_timed_out ctx (clock w1) (Some t)
                then Some (TIMEOUT, Some (timeout_message (Some t)), w1)
                else Some (result, None, w1)
            | Raises msg => Some (FAILURE, Some msg, w1)
            end = Some (res, err, w1)).
  { destruct o; [destruct (has_timed_out _ _ _)|]; by eexists _, _. }
  destruct Hatt as (res & err & ->).
  destruct (is_failure res && bool_decide (r0 < max_retries md)) eqn:Eretry.
  - apply andb_true_iff in Eretry as [_ Hlt]. apply bool_decide_eq_true in Hlt.
    apply IH; [exact Hmd|]. simpl. rewrite lookup_insert_eq. simpl. lia.
  - by eexists _, _, _.
Qed.

Lemma execute_state_terminates_witness :
  let cls := Steps.machine (Steps.meta Steps.A 1 (Some 250) None) []
               (Steps.always (Returns RETRY) 1) in
  let self := Steps.initialized cls in
  exists result self' w',
    _execute_state 5 cls Steps.A self Steps.w0 = Ok result self' w'.
Proof.
  intros cls self.
  apply (execute_state_terminates cls Steps.A
           (Steps.meta Steps.A 1 (Some 250) None)
           (Steps.always (Returns RETRY) 1) 250).
  - vm_compute. reflexivity.
  - reflexivity.
  - lia.
  - intros c now. simpl. lia.
  - vm_compute. reflexivity.
  - vm_compute. discriminate.
Defined.

Lemma handler_loop_diverges (h : Handler) ctx :
  (forall now, (h ctx now).1 = Returns RETRY) ->
  forall fuel result w, handler_loop fuel h ctx None result w = None.
Proof.
  intros Hr. induction fuel as [|fuel IH]; intros result w; [done|].
  cbn [handler_loop]. simpl has_timed_out. cbv iota.
  unfold invoke. specialize (Hr (clock w)).
  destruct (h ctx (clock w)) as [o d]. simpl in Hr. subst o.
  simpl. apply IH.
Qed.

(** Without a timeout, a handler that returns [RETRY] every time is called
    again and again: whatever the fuel, [_execute_state] does not come to a
    result, neither the retry limit nor the failover state apply. *)
Theorem execute_state_retry_forever cls (state : State) md (h : Handler) self w :
  _state_metadata self !! state = Some md ->
  methods cls !! handler_name state = Some h ->
  timeout md = None ->
  (forall ctx now, current_state ctx = state -> (h ctx now).1 = Returns RETRY) ->
  forall fuel, _execute_state fuel cls state self w = OutOfFuel.
Proof.
  intros Hmd Hh Ht Hr fuel. destruct fuel as [|fuel]; [done|].
  cbn [_execute_state]. rewrite Hmd. cbv zeta.
  unfold _get_state_handler. rewrite Hh. unfold attempt. rewrite Ht.
  rewrite handler_loop_diverges; [done|].
  intros now. by apply Hr.
Qed.

Lemma execute_state_retry_forever_witness :
  let cls := Steps.machine (Steps.meta Steps.A 0 None (Some Steps.ERROR)) []
               (Steps.always (Returns RETRY) 1) in
  _execute_state 1000 cls Steps.A (Steps.initialized cls) Steps.w0 = OutOfFuel.
Proof.
  intros cls.
  apply (execute_state_retry_forever cls Steps.A
           (Steps.meta Steps.A 0 None (Some Steps.ERROR))
           (Steps.always (Returns RETRY) 1)).
  - vm_compute. reflexivity.
  - vm_compute. reflexivity.
  - reflexivity.
  - intros ctx now _. reflexivity.
Defined.

(** ** [run] and the configuration *)

(** [run] on an engine that is not initialised validates the configuration
    first: a configuration that is not well formed makes [run] raise the
    configuration error before any handler is called and before the retry
    counters are cleared. *)
Theorem run_rejects_invalid_configuration fuel cls self w :
  _initialized self = false -> ~ well_formed cls ->
  exists msg,
    config_error cls msg /\
    run fuel cls self w = Exn (ValueError msg) (configured cls self) w /\
    _retry_counts (configured cls self) = _retry_counts self /\
    _initialized (configured cls self) = false.
Proof.
  intros Hi Hwf. rewrite run_uninitialized by exact Hi.
  destruct (_validate (configured cls self)) as [e|] eqn:Hv.
  - apply validate_configured_Some in Hv as (msg & -> & Hmsg).
    exists msg. repeat split; done.
  - apply validate_configured_None in Hv. contradiction.
Qed.

Lemma run_rejects_invalid_configuration_witness :
  exists msg,
    run 5 Steps.wrong_initial (new_StateMachine Steps.w0) Steps.w0
    = Exn (ValueError msg)
        (configured Steps.wrong_initial (new_StateMachine Steps.w0)) Steps.w0.
Proof.
  destruct (run_rejects_invalid_configuration 5 Steps.wrong_initial
              (new_StateMachine Steps.w0) Steps.w0 eq_refl
              wrong_initial_not_well_formed) as (msg & _ & Hrun & _).
  by exists msg.
Defined.

(** ** More on the watchdog *)

Lemma bind_Exn {A B} (c : Eng A) (k : A -> Eng B) self w e self' w' :
  c self w = Exn e self' w' -> bind c k self w = Exn e self' w'.
Proof. unfold bind. by intros ->. Qed.

Lemma run_loop_watchdog_abort fuel cls k steps self w T :
  _watchdog_timeout self = Some T ->
  T <= clock w - _watchdog_last_activity self ->
  run_loop fuel cls (S k) steps self w
  = Exn (RuntimeError (watchdog_message (clock w - _watchdog_last_activity self) T))
      self w.
Proof.
  intros HT Hidle. cbn [run_loop]. apply bind_Exn. by apply check_watchdog_idle.
Qed.

Lemma run_watchdog_abort fuel cls self w T :
  _initialized self = true ->
  _watchdog_timeout self = Some T ->
  T <= clock w - _watchdog_last_activity self ->
  run fuel cls self w
  = Exn (RuntimeError (watchdog_message (clock w - _watchdog_last_activity self) T))
      (set_retry_counts ∅ self) w.
Proof.
  intros Hi HT Hidle. rewrite run_initialized by exact Hi.
  apply bind_Exn.
  exact (run_loop_watchdog_abort fuel cls 99 0 (set_retry_counts ∅ self) w T HT Hidle).
Qed.

(** After the watchdog has stopped a run, [reset] alone does not help:
    [reset] leaves the watchdog clock where it was, so a [run] started at
    any later time is stopped again at its first iteration, with the
    engine back at its initial state and no handler called. *)
Theorem reset_keeps_watchdog_expired fuel cls self w T :
  _initialized self = true ->
  _watchdog_timeout self = Some T ->
  T <= clock w - _watchdog_last_activity self ->
  run fuel cls self w
  = Exn (RuntimeError (watchdog_message (clock w - _watchdog_last_activity self) T))
      (set_retry_counts ∅ self) w /\
  forall w2, clock w <= clock w2 ->
    bind (reset cls) (fun _ => run fuel cls) (set_retry_counts ∅ self) w2
    = Exn (RuntimeError
             (watchdog_message (clock w2 - _watchdog_last_activity self) T))
        (set_retry_counts ∅
           (set_current_state (Some (get_initial_state cls)) self)) w2.
Proof.
  intros Hi HT Hidle. split; [by apply run_watchdog_abort|].
  intros w2 Hlater.
  assert (Hreset : reset cls (set_retry_counts ∅ self) w2
                   = Ok tt (set_retry_counts ∅
                              (set_current_state (Some (get_initial_state cls)) self))
                       w2) by reflexivity.
  unfold bind at 1. rewrite Hreset.
  rewrite (run_watchdog_abort fuel cls _ w2 T); [reflexivity|exact Hi|exact HT|].
  simpl. lia.
Qed.

Lemma reset_keeps_watchdog_expired_witness :
  _initialized Steps.idle = true /\
  forall w2, clock Steps.w0 <= clock w2 ->
    bind (reset Steps.chain) (fun _ => run 5 Steps.chain)
      (set_retry_counts ∅ Steps.idle) w2
    = Exn (RuntimeError (watchdog_message (clock w2 - -9000) 5000))
        (set_retry_counts ∅
           (set_current_state (Some Steps.A) Steps.idle)) w2.
Proof.
  assert (Hi : _initialized Steps.idle = true) by (vm_compute; reflexivity).
  split; [exact Hi|].
  apply (reset_keeps_watchdog_expired 5 Steps.chain Steps.idle Steps.w0 5000).
  - exact Hi.
  - reflexivity.
  - vm_compute. discriminate.
Defined.

(** The watchdog check changes nothing but the warning flag; the flag is
    raised when the idle time has reached four fifths of the threshold,
    and once it is raised a check that passes is a no-op, until
    [record_activity] clears it. *)
Theorem check_watchdog_warns_once self w self1 w1 :
  _check_watchdog self w = Ok tt self1 w1 ->
  w1 = w /\
  self1 = set_watchdog (_watchdog_timeout self) (_watchdog_last_activity self)
            (_watchdog_warned self1) self /\
  (_watchdog_warned self1 = true <->
   _watchdog_warned self = true \/
   exists T, _watchdog_timeout self = Some T /\
             4 * T <= 5 * (clock w - _watchdog_last_activity self)) /\
  (_watchdog_warned self1 = true ->
   forall w2 self2 w2',
     _check_watchdog self1 w2 = Ok tt self2 w2' -> self2 = self1 /\ w2' = w2) /\
  (forall w2, exists self2,
     record_activity self1 w2 = Ok tt self2 w2 /\ _watchdog_warned self2 = false).
Proof.
  intros Hc.
  assert (Hnoop : forall s w2 s2 w2',
            _watchdog_warned s = true ->
            _check_watchdog s w2 = Ok tt s2 w2' -> s2 = s /\ w2' = w2).
  { intros s w2 s2 w2' Hw. unfold _check_watchdog, bind, get_self, time_time.
    destruct (_watchdog_timeout s) as [T|]; [|by intros [= <- <-]].
    destruct (bool_decide (T <= _)); [done|].
    rewrite Hw, andb_false_r. by intros [= <- <-]. }
  split; [|split; [|split; [|split]]].
  - unfold _check_watchdog, bind, get_self, time_time in Hc.
    destruct (_watchdog_timeout self) as [T|]; [|by injection Hc].
    destruct (bool_decide (T <= _)); [done|].
    destruct (_ && _); by injection Hc.
  - unfold _check_watchdog, bind, get_self, time_time in Hc.
    destruct (_watchdog_timeout self) as [T|] eqn:HT.
    + destruct (bool_decide (T <= _)); [done|].
      destruct (_ && _); injection Hc as <- <-; simpl; [done|].
      destruct self; simpl in *; by subst.
    + injection Hc as <- <-. destruct self; simpl in *; by subst.
  - unfold _check_watchdog, bind, get_self, time_time in Hc.
    destruct (_watchdog_timeout self) as [T|] eqn:HT.
    + destruct (bool_decide (T <= _)); [done|].
      destruct (decide (4 * T <= 5 * (clock w - _watchdog_last_activity self)))
        as [Hwarn|Hwarn].
      * rewrite (bool_decide_eq_true_2 _ Hwarn) in Hc.
        destruct (_watchdog_warned self) eqn:Hw; simpl in Hc;
          injection Hc as <- <-; simpl.
        -- split; [by left|done].
        -- split; [intros _; right; by exists T|done].
      * rewrite (bool_decide_eq_false_2 _ Hwarn) in Hc. simpl in Hc.
        injection Hc as <- <-. split; [by left|].
        intros [H|(T' & [= <-] & H)]; [done|contradiction].
    + injection Hc as <- <-. split; [by left|].
      intros [H|(T' & [=] & _)]. done.
  - intros Hw w2 self2 w2'. by apply Hnoop.
  - intros w2. eexists. split; reflexivity.
Qed.

Lemma check_watchdog_warns_once_witness :
  let self := set_watchdog (Some 5000) 0 false (Steps.initialized Steps.chain) in
  let w := mkWorld 4500 [] in
  exists self1,
    _check_watchdog self w = Ok tt self1 w /\
    _watchdog_warned self1 = true /\
    _check_watchdog self1 (mkWorld 4900 []) = Ok tt self1 (mkWorld 4900 []).
Proof.
  intros self w.
  assert (Hc : _check_watchdog self w
               = Ok tt (set_watchdog (Some 5000) 0 true self) w) by reflexivity.
  destruct (check_watchdog_warns_once self w _ _ Hc) as (_ & _ & _ & Honce & _).
  exists (set_watchdog (Some 5000) 0 true self).
  split; [exact Hc|]. split; [reflexivity|].
  assert (Hc2 : exists s2 w2', _check_watchdog (set_watchdog (Some 5000) 0 true self)
                                 (mkWorld 4900 []) = Ok tt s2 w2').
  { eexists _, _. reflexivity. }
  destruct Hc2 as (s2 & w2' & Hc2).
  destruct (Honce eq_refl _ _ _ Hc2) as [-> ->]. exact Hc2.
Defined.

(** [enable_watchdog] does not check its threshold: with a threshold of
    zero or less every later check raises, also right after
    [record_activity]. *)
Theorem watchdog_nonpositive_threshold (T : Time) self w :
  T <= 0 ->
  exists self1,
    enable_watchdog T self w = Ok tt self1 w /\
    forall w2, clock w <= clock w2 ->
      (exists msg, _check_watchdog self1 w2 = Exn (RuntimeError msg) self1 w2) /\
      exists self2,
        record_activity self1 w2 = Ok tt self2 w2 /\
        forall w3, clock w2 <= clock w3 ->
          exists msg, _check_watchdog self2 w3 = Exn (RuntimeError msg) self2 w3.
Proof.
  intros HT. eexists. split; [reflexivity|].
  intros w2 Hw2. split.
  - eexists. apply (check_watchdog_idle _ w2 T); [reflexivity|simpl; lia].
  - eexists. split; [reflexivity|]. intros w3 Hw3.
    eexists. apply (check_watchdog_idle _ w3 T); [reflexivity|simpl; lia].
Qed.

Lemma watchdog_nonpositive_threshold_witness :
  exists self1 msg,
    enable_watchdog 0 (Steps.initialized Steps.chain) Steps.w0
    = Ok tt self1 Steps.w0 /\
    _check_watchdog self1 Steps.w0 = Exn (RuntimeError msg) self1 Steps.w0.
Proof.
  destruct (watchdog_nonpositive_threshold 0 (Steps.initialized Steps.chain)
              Steps.w0) as (self1 & Hen & Hall); [lia|].
  destruct (Hall Steps.w0) as [[msg Hc] _]; [lia|].
  by exists self1, msg.
Defined.

(** ** What validation covers, and what it does not *)





(** The failover state is not validated.  When it is a state without
    metadata, the configuration is accepted all the same; the failover
    jump is made, and the next iteration of the run loop raises a
    [KeyError] for it. *)
Theorem failover_without_metadata cls (state : State) md (h : Handler) F self w
    (n fuel k steps : nat) :
  _state_metadata self !! state = Some md ->
  methods cls !! handler_name state = Some h ->
  in_time h md ->
  max_retries md = Z.of_nat n ->
  failover_state md = Some F ->
  _state_metadata self !! F = None ->
  default 0 (_retry_counts self !! state) = 0 ->
  (forall ctx now, current_state ctx = state -> fails (h ctx now).1) ->
  _watchdog_timeout self = None ->
  _current_state self = Some state ->
  run_loop (n + S fuel) cls (S (S k)) steps self w
  = Exn (KeyError (Some F)) (exhausted h state md n self w).1
      (exhausted h state md n self w).2.
Proof.
  intros Hmd Hh Hin Hmax HF HnoF Hr0 Hfail Hwd Hcur.
  assert (Hne : F <> state) by congruence.
  pose proof (execute_state_exhausted cls state md h self w n fuel
                Hmd Hh Hin Hmax Hr0 Hfail) as Hexec.
  destruct (exhausted_spec h state md n self w F HF) as (Hcur' & _).
  cbv zeta in Hcur'.
  pose proof (execute_state_frame cls state (n + S fuel) self w) as Hframe.
  rewrite Hexec in Hframe. unfold ends_with in Hframe.
  destruct Hframe as (_ & Hmd' & _ & _ & _ & Hwd' & _).
  rewrite (run_loop_iteration _ _ _ _ _ _ _ _ _ _ _
             (check_watchdog_disabled self w Hwd) Hcur Hexec).
  rewrite Hcur'. rewrite bool_decide_eq_false_2 by congruence. simpl negb. cbv iota.
  eapply run_loop_raises.
  - apply check_watchdog_disabled. by rewrite Hwd'.
  - exact Hcur'.
  - rewrite Nat.add_succ_r. cbn [_execute_state]. by rewrite Hmd', HnoF.
Qed.

Lemma failover_without_metadata_witness :
  let cls := Steps.failing_over 0 None Steps.X (Returns FAILURE) 1 in
  let self := Steps.initialized cls in
  _initialized self = true /\
  exists self' w',
    run_loop (0 + 1) cls 100 0 self Steps.w0 = Exn (KeyError (Some Steps.X)) self' w'.
Proof.
  intros cls self. split; [vm_compute; reflexivity|].
  eexists _, _.
  apply (failover_without_metadata cls Steps.A
           (Steps.meta Steps.A 0 None (Some Steps.X))
           (Steps.always (Returns FAILURE) 1) Steps.X self Steps.w0 0 0 98 0).
  - vm_compute. reflexivity.
  - vm_compute. reflexivity.
  - exact I.
  - reflexivity.
  - reflexivity.
  - vm_compute. reflexivity.
  - vm_compute. reflexivity.
  - intros ctx now _. left. reflexivity.
  - vm_compute. reflexivity.
  - vm_compute. reflexivity.
Defined.

(** ** More on history queries *)

(** Whatever its argument, [get_history] returns a suffix of the history;
    with a negative [last_n] it is not the last entries that are returned
    but the history without its first [-last_n] entries. *)
Theorem get_history_negative (self : StateMachine) :
  (forall last_n, exists k : nat,
     get_history self last_n = drop k (_state_history self)) /\
  forall n : Z, n < 0 ->
    get_history self (Some n) = drop (Z.to_nat (- n)) (_state_history self).
Proof.
  split.
  - intros [n|]; [|by exists 0%nat]. unfold get_history, slice_from. by eexists.
  - intros n Hn. unfold get_history, slice_from.
    rewrite bool_decide_eq_false_2 by lia.
    destruct (decide (- n <= Z.of_nat (length (_state_history self)))) as [Hle|Hgt].
    + f_equal. lia.
    + rewrite !drop_ge by lia. reflexivity.
Qed.

Lemma get_history_negative_witness :
  let self := Steps.with_history
                [Steps.entry Steps.A SUCCESS; Steps.entry Steps.B SUCCESS;
                 Steps.entry Steps.C SUCCESS] in
  -1 < 0 /\ get_history self (Some (-1))
            = [Steps.entry Steps.B SUCCESS; Steps.entry Steps.C SUCCESS].
Proof.
  intros self. split; [lia|].
  rewrite (proj2 (get_history_negative self) (-1)) by lia. reflexivity.
Defined.

(** Every entry that [_execute_state] records is classified by the two
    properties of [StateHistoryEntry]: it has succeeded, or it has failed,
    or it is a [SKIP], never two of these; and [failed] says of a recorded
    entry what the retry logic of the engine said of its result. *)
Theorem history_entries_classified cls (state : State) md fuel self w result self' w' :
  _state_metadata self !! state = Some md ->
  _execute_state fuel cls state self w = Ok result self' w' ->
  exists entries,
    _state_history self'
    = fold_left (deque_append HISTORY_MAXLEN) entries (_state_history self) /\
    Forall (fun e =>
              failed e = is_failure (h_result e) /\
              (succeeded e = true <-> h_result e = SUCCESS) /\
              (succeeded e = true \/ failed e = true \/ h_result e = SKIP) /\
              ~ (succeeded e = true /\ failed e = true)) entries.
Proof.
  intros Hmd Hexec.
  destruct (execute_state_trace cls state md fuel self w result self' w' Hmd Hexec)
    as (front & last & Hh & _ & Hall & _).
  exists (front ++ [last]). split; [exact Hh|].
  eapply Forall_impl; [exact Hall|].
  intros e [_ Hnr]. unfold failed, succeeded, is_failure.
  destruct (h_result e); [| |congruence| |]; vm_compute;
    (split; [reflexivity|]); (split; [split; intros Hx; congruence|]);
    (split; [|intros [H1 H2]; congruence]);
    first [by left | by (right; left) | by (right; right)].
Qed.

Lemma history_entries_classified_witness :
  let cls := Steps.failing_over 2 None Steps.ERROR (Returns FAILURE) 1 in
  let self := Steps.initialized cls in
  let md := Steps.meta Steps.A 2 None (Some Steps.ERROR) in
  let self' := (exhausted (Steps.always (Returns FAILURE) 1) Steps.A md 2 self
                  Steps.w0).1 in
  exists entries,
    _state_history self'
    = fold_left (deque_append HISTORY_MAXLEN) entries (_state_history self) /\
    Forall (fun e => failed e = is_failure (h_result e)) entries.
Proof.
  intros cls self md self'.
  assert (Hmd : _state_metadata self !! Steps.A = Some md)
    by (vm_compute; reflexivity).
  assert (Hexec : _execute_state (2 + 1) cls Steps.A self Steps.w0
                  = Ok FAILURE self'
                      (exhausted (Steps.always (Returns FAILURE) 1) Steps.A md 2
                         self Steps.w0).2).
  { apply (execute_state_exhausted cls Steps.A md
             (Steps.always (Returns FAILURE) 1) self Steps.w0 2 0).
    - exact Hmd.
    - vm_compute. reflexivity.
    - exact I.
    - reflexivity.
    - vm_compute. reflexivity.
    - intros ctx now _. left. reflexivity. }
  destruct (history_entries_classified cls Steps.A md _ _ _ _ _ _ Hmd Hexec)
    as (entries & Hh & Hall).
  exists entries. split; [exact Hh|].
  eapply Forall_impl; [exact Hall|]. intros e He. apply He.
Defined.
